(** * PuppyCamera: the polaroid framer and the photo lifecycle of App.tsx

    A shallow embedding of [src/utils/imageProcessor.ts] (the framing
    geometry and the canvas calls it issues) and of the state handlers of
    [src/App.tsx] (uploads, the developing run, the release queue, the desk).

    Numbers.  JavaScript numbers are modelled as exact rationals [Q]: the
    arithmetic of the source ([+], [-], [*], [/], [Math.min], [Math.max],
    [Math.floor]) is the arithmetic of [Q], binary64 rounding is not
    modelled.  The one division whose divisor can be zero,
    [img.width / img.height], has the value JavaScript gives it; the others
    divide by 2 or by [total], which is positive inside the loop.  Integer
    quantities of the host (image and desk dimensions, array lengths) are
    [N] or [nat], the z-index counter is [Z].  Bounds on a placement are
    stated with [<=], which rounding keeps, where the exact value stays
    strictly inside.

    Strings.  A string is the UTF-8 encoding of the JavaScript string; where
    the source looks at characters ([trim]) the bytes are decoded first. *)

From Stdlib Require Import List Bool ZArith NArith QArith Qround Qminmax.
From Stdlib Require Import String Ascii Lia Lqa.
Import ListNotations.

Local Open Scope string_scope.
Local Open Scope list_scope.

(** An integer of the host read as a JavaScript number. *)
Definition ofN (n : N) : Q := inject_Z (Z.of_N n).
Definition ofNat (n : nat) : Q := inject_Z (Z.of_nat n).

(** ** src/utils/imageProcessor.ts *)
Module Framer.

(** The decoded [<img>] element, as far as the code reads it. *)
Record Image := { width : N; height : N }.

(** [img.width / img.height] for two non-negative integers: a finite
    quotient, [Infinity] for [n / 0] with [n > 0], [NaN] for [0 / 0]. *)
Inductive Quotient :=
| Finite (q : Q)
| PlusInfinity
| NotANumber.

Definition divide (a b : N) : Quotient :=
  if (b =? 0)%N
  then (if (a =? 0)%N then NotANumber else PlusInfinity)
  else Finite (ofN a / ofN b).

(** [x > c]; every comparison with [NaN] is false. *)
Definition greaterThan (x : Quotient) (c : Q) : bool :=
  match x with
  | Finite q => if Qlt_le_dec c q then true else false
  | PlusInfinity => true
  | NotANumber => false
  end.

(** "Polaroid Dimensions Ratio": the constants computed from [width]. *)
Record Layout := {
  frameWidth : Q;
  frameHeight : Q;
  padding : Q;
  photoWidth : Q;
  photoHeight : Q
}.

Definition layout (width : Q) : Layout :=
  let frameWidth := width in
  let frameHeight := (width * 1.25)%Q in
  let padding := (width * 0.08)%Q in
  let photoWidth := (frameWidth - (padding * 2))%Q in
  let photoHeight := photoWidth in
  {| frameWidth := frameWidth; frameHeight := frameHeight;
     padding := padding; photoWidth := photoWidth;
     photoHeight := photoHeight |}.

(** "3. Draw the Image (Center Crop)": the source rectangle. *)
Record Crop := { sx : Q; sy : Q; sWidth : Q; sHeight : Q }.

Definition centerCrop (img : Image) : Crop :=
  let sourceAspect := divide (width img) (height img) in
  if greaterThan sourceAspect 1
  then (* Wide image: crop sides *)
    {| sx := ((ofN (width img) - ofN (height img)) / 2)%Q; sy := 0%Q;
       sWidth := ofN (height img); sHeight := ofN (height img) |}
  else (* Tall image: crop top/bottom *)
    {| sx := 0%Q; sy := ((ofN (height img) - ofN (width img)) / 2)%Q;
       sWidth := ofN (width img); sHeight := ofN (width img) |}.

(** The calls made on the canvas and its 2d context, in program order. *)
Inductive CanvasCall :=
| SetCanvasWidth (v : Q)
| SetCanvasHeight (v : Q)
| SetFillStyle (colour : string)
| FillRect (x y w h : Q)
| DrawImage (sx sy sWidth sHeight dx dy dWidth dHeight : Q)
| SetStrokeStyle (colour : string)
| SetLineWidth (v : Q)
| StrokeRect (x y w h : Q)
| SetFont (px : Z) (family : string)
| SetTextAlign (a : string)
| SetTextBaseline (b : string)
| FillText (text : string) (x y maxWidth : Q).

(** A string of the model is the UTF-8 encoding of the JavaScript string.
    [codePoints] decodes it, one element per character; a byte that does
    not start a well-formed sequence is read as U+FFFD. *)
Definition continuation (c : ascii) : option N :=
  let b := N_of_ascii c in
  if ((128 <=? b) && (b <? 192))%N then Some (b - 128)%N else None.

Fixpoint codePoints (s : string) : list N :=
  match s with
  | EmptyString => []
  | String c0 r0 =>
      let b0 := N_of_ascii c0 in
      if (b0 <? 128)%N then b0 :: codePoints r0
      else
        match r0 with
        | String c1 r1 =>
            match continuation c1 with
            | Some x1 =>
                if ((192 <=? b0) && (b0 <? 224))%N
                then ((b0 - 192) * 64 + x1)%N :: codePoints r1
                else
                  match r1 with
                  | String c2 r2 =>
                      match continuation c2 with
                      | Some x2 =>
                          if ((224 <=? b0) && (b0 <? 240))%N
                          then ((b0 - 224) * 4096 + x1 * 64 + x2)%N
                                 :: codePoints r2
                          else
                            match r2 with
                            | String c3 r3 =>
                                match continuation c3 with
                                | Some x3 =>
                                    if ((240 <=? b0) && (b0 <? 248))%N
                                    then ((b0 - 240) * 262144 + x1 * 4096
                                          + x2 * 64 + x3)%N :: codePoints r3
                                    else 65533%N :: codePoints r0
                                | None => 65533%N :: codePoints r0
                                end
                            | EmptyString => 65533%N :: codePoints r0
                            end
                      | None => 65533%N :: codePoints r0
                      end
                  | EmptyString => 65533%N :: codePoints r0
                  end
            | None => 65533%N :: codePoints r0
            end
        | EmptyString => [65533%N]
        end
  end.

(** The characters [String.prototype.trim] strips, the WhiteSpace and
    LineTerminator of ECMAScript: U+0009 to U+000D, U+0020, U+00A0, U+1680,
    U+2000 to U+200A, U+2028, U+2029, U+202F, U+205F, U+3000, U+FEFF. *)
Definition isWhiteSpace (cp : N) : bool :=
  ((9 <=? cp) && (cp <=? 13) || (cp =? 32) || (cp =? 160) || (cp =? 5760)
   || (8192 <=? cp) && (cp <=? 8202) || (cp =? 8232) || (cp =? 8233)
   || (cp =? 8239) || (cp =? 8287) || (cp =? 12288) || (cp =? 65279))%N.

Fixpoint trimStart (l : list N) : list N :=
  match l with
  | [] => []
  | c :: rest => if isWhiteSpace c then trimStart rest else l
  end.

(** [String.prototype.trim], on the characters of the string. *)
Definition trim (l : list N) : list N :=
  rev (trimStart (rev (trimStart l))).

(** The outcome of the promise. *)
Inductive Reason := ImageError | NoCanvasContext.

Inductive Settled :=
| Resolved (dataUrl : string)
| Rejected (why : Reason).

(** What the browser answers during one call: whether the image loads (and
    with which dimensions) and whether a 2d context is handed out. *)
Record Host := { onload : option Image; context2d : bool }.

Section Canvas.
(** The value read back from [canvas.width] and [canvas.height] after an
    assignment, and the PNG encoding of what was drawn. *)
Variable canvasDim : Q -> Q.
Variable toDataURL : list CanvasCall -> string.

Definition caption (text : string) (width : Q) (l : Layout)
  : list CanvasCall :=
  if negb (text =? "") && (0 <? List.length (trim (codePoints text)))%nat
  then
    let fontSize := Qfloor (width * 0.1) in
    let bottomAreaTop := (padding l + photoHeight l)%Q in
    let bottomAreaHeight := (frameHeight l - bottomAreaTop)%Q in
    let textX := (frameWidth l / 2)%Q in
    let textY :=
      (bottomAreaTop + (bottomAreaHeight / 2) + (inject_Z fontSize * 0.1))%Q in
    [ SetFont fontSize "'Caveat', cursive";
      SetFillStyle "#374151";
      SetTextAlign "center";
      SetTextBaseline "middle";
      FillText text textX textY (frameWidth l - (padding l * 2))%Q ]
  else [].

Definition draw (img : Image) (text : string) (width : Q)
  : list CanvasCall :=
  let l := layout width in
  let c := centerCrop img in
  [ SetCanvasWidth (frameWidth l);
    SetCanvasHeight (frameHeight l);
    SetFillStyle "#ffffff";
    FillRect 0 0 (canvasDim (frameWidth l)) (canvasDim (frameHeight l));
    SetFillStyle "#f0f0f0";
    FillRect (padding l) (padding l) (photoWidth l) (photoHeight l);
    DrawImage (sx c) (sy c) (sWidth c) (sHeight c)
              (padding l) (padding l) (photoWidth l) (photoHeight l);
    SetStrokeStyle "#e5e5e5";
    SetLineWidth 1;
    StrokeRect (padding l) (padding l) (photoWidth l) (photoHeight l) ]
  ++ caption text width l.

Definition createPolaroidFrame (host : Host) (imageUrl text : string)
    (width : Q) : Settled :=
  match onload host with
  | None => Rejected ImageError
  | Some img =>
      if context2d host
      then Resolved (toDataURL (draw img text width))
      else Rejected NoCanvasContext
  end.
End Canvas.

End Framer.

(** ** The canvas element of the host

    [canvas.width] and [canvas.height] are [unsigned long] attributes of
    the browser, not code of the repository: an assignment converts the
    number (the fraction is dropped, the result is taken modulo 2^32) and
    stores it, or stores the default of the attribute when the result
    exceeds 2^31 - 1.  A new canvas is 300 by 150. *)
Module HostCanvas.







End HostCanvas.

(** ** src/App.tsx (with the interfaces of types.ts) *)
Module App.

(** [UploadedPhoto]; the [file] handle is never read by the handlers. *)
Module UploadedPhoto.
Record t := make { id : string; url : string; caption : string }.
End UploadedPhoto.

Module FramedPhotoData.
Record t := make {
  id : string;
  originalUrl : string;
  framedUrl : string;
  x : Q;
  y : Q;
  rotation : Q;
  zIndex : Z;
  scale : Q
}.
End FramedPhotoData.

Definition Uploaded : Type := UploadedPhoto.t.
Definition Framed : Type := FramedPhotoData.t.

(** The component state: the [useState] cells the handlers touch and the
    [highestZIndex] ref ([useRef(10)]). *)
Record State := {
  uploads : list Uploaded;
  processingQueue : list Framed;
  dispensedPhotos : list Framed;
  isProcessing : bool;
  progress : Q;
  cameraStream : bool;
  highestZIndex : Z
}.

Definition initialState : State :=
  {| uploads := []; processingQueue := []; dispensedPhotos := [];
     isProcessing := false; progress := 0%Q; cameraStream := false;
     highestZIndex := 10%Z |}.

(** The state setters; the list setters take React's updater function. *)
Definition setUploads (f : list Uploaded -> list Uploaded) (s : State) :=
  {| uploads := f (uploads s); processingQueue := processingQueue s;
     dispensedPhotos := dispensedPhotos s; isProcessing := isProcessing s;
     progress := progress s; cameraStream := cameraStream s;
     highestZIndex := highestZIndex s |}.

Definition setProcessingQueue (f : list Framed -> list Framed) (s : State) :=
  {| uploads := uploads s; processingQueue := f (processingQueue s);
     dispensedPhotos := dispensedPhotos s; isProcessing := isProcessing s;
     progress := progress s; cameraStream := cameraStream s;
     highestZIndex := highestZIndex s |}.

Definition setDispensedPhotos (f : list Framed -> list Framed) (s : State) :=
  {| uploads := uploads s; processingQueue := processingQueue s;
     dispensedPhotos := f (dispensedPhotos s); isProcessing := isProcessing s;
     progress := progress s; cameraStream := cameraStream s;
     highestZIndex := highestZIndex s |}.

Definition setIsProcessing (b : bool) (s : State) :=
  {| uploads := uploads s; processingQueue := processingQueue s;
     dispensedPhotos := dispensedPhotos s; isProcessing := b;
     progress := progress s; cameraStream := cameraStream s;
     highestZIndex := highestZIndex s |}.

Definition setProgress (p : Q) (s : State) :=
  {| uploads := uploads s; processingQueue := processingQueue s;
     dispensedPhotos := dispensedPhotos s; isProcessing := isProcessing s;
     progress := p; cameraStream := cameraStream s;
     highestZIndex := highestZIndex s |}.

Definition setCameraStream (b : bool) (s : State) :=
  {| uploads := uploads s; processingQueue := processingQueue s;
     dispensedPhotos := dispensedPhotos s; isProcessing := isProcessing s;
     progress := progress s; cameraStream := b;
     highestZIndex := highestZIndex s |}.

Definition setHighestZIndex (z : Z) (s : State) :=
  {| uploads := uploads s; processingQueue := processingQueue s;
     dispensedPhotos := dispensedPhotos s; isProcessing := isProcessing s;
     progress := progress s; cameraStream := cameraStream s;
     highestZIndex := z |}.

(** *** The synchronous handlers *)

(** [files] are the picked files with the id drawn for each and its object
    URL; [None] is [e.target.files] being null. *)
Definition handleFileUpload (files : option (list (string * string)))
    (s : State) : State :=
  match files with
  | Some fs =>
      let newFiles :=
        map (fun f => UploadedPhoto.make (fst f) (snd f) "") fs in
      setUploads (fun prev => prev ++ newFiles) s
  | None => s
  end.

Definition stopCamera (s : State) : State :=
  if cameraStream s then setCameraStream false s else s.

(** The callback of [grabFrame] in [snapPhoto], with the id drawn and the
    data URL of the frame. *)
Definition snapped (id url : string) (s : State) : State :=
  setUploads (fun prev => prev ++ [UploadedPhoto.make id url ""]) s.

Definition removeUpload (id : string) (s : State) : State :=
  setUploads (filter (fun p => negb (UploadedPhoto.id p =? id))) s.

Definition updateCaption (id text : string) (s : State) : State :=
  setUploads
    (map (fun p =>
            if UploadedPhoto.id p =? id
            then UploadedPhoto.make (UploadedPhoto.id p) (UploadedPhoto.url p)
                                    text
            else p)) s.

Definition deleteDispensedPhoto (id : string) (s : State) : State :=
  setDispensedPhotos (filter (fun p => negb (FramedPhotoData.id p =? id))) s.

Definition withScale (p : Framed) (newScale : Q) : Framed :=
  FramedPhotoData.make (FramedPhotoData.id p) (FramedPhotoData.originalUrl p)
    (FramedPhotoData.framedUrl p) (FramedPhotoData.x p) (FramedPhotoData.y p)
    (FramedPhotoData.rotation p) (FramedPhotoData.zIndex p) newScale.

Definition withZIndex (p : Framed) (z : Z) : Framed :=
  FramedPhotoData.make (FramedPhotoData.id p) (FramedPhotoData.originalUrl p)
    (FramedPhotoData.framedUrl p) (FramedPhotoData.x p) (FramedPhotoData.y p)
    (FramedPhotoData.rotation p) z (FramedPhotoData.scale p).

(** [v || d] on a number: [0] is falsy. *)
Definition orElse (v d : Q) : Q := if Qeq_bool v 0 then d else v.

(** [Math.max(0.5, Math.min(2.5, (p.scale || 1) + delta))] *)
Definition rescaled (p : Framed) (delta : Q) : Q :=
  Qmax 0.5 (Qmin 2.5 (orElse (FramedPhotoData.scale p) 1 + delta)).

Definition updatePhotoScale (id : string) (delta : Q) (s : State) : State :=
  setDispensedPhotos
    (map (fun p =>
            if FramedPhotoData.id p =? id
            then let newScale := rescaled p delta in withScale p newScale
            else p)) s.

(** [deskRef.current]: the desk element with its client size, when mounted. *)
Record Desk := { clientWidth : N; clientHeight : N }.

(** [deskRef.current?.clientWidth || d] *)
Definition sizeOr (v : option N) (d : Q) : Q :=
  match v with
  | Some n => orElse (ofN n) d
  | None => d
  end.

(** [u1], [u2], [u3] are the three values of [Math.random()], in call order. *)
Definition ejectPhoto (deskRef : option Desk) (u1 u2 u3 : Q) (s : State)
    : State :=
  match processingQueue s with
  | [] => s
  | nextPhoto :: remainingQueue =>
      let s1 := setProcessingQueue (fun _ => remainingQueue) s in
      let deskWidth := sizeOr (option_map clientWidth deskRef) 300 in
      let deskHeight := sizeOr (option_map clientHeight deskRef) 500 in
      let padding := 50%Q in
      let randomX := (u1 * (deskWidth - 150 - padding * 2) + padding)%Q in
      let randomY := (u2 * (deskHeight - 200 - padding * 2) + padding)%Q in
      let randomRot := (u3 * 40 - 20)%Q in
      let dispensedPhoto :=
        FramedPhotoData.make
          (FramedPhotoData.id nextPhoto)
          (FramedPhotoData.originalUrl nextPhoto)
          (FramedPhotoData.framedUrl nextPhoto)
          randomX randomY randomRot
          (highestZIndex s1)            (* highestZIndex.current++ *)
          1 in
      let s2 := setHighestZIndex (highestZIndex s1 + 1) s1 in
      setDispensedPhotos (fun prev => prev ++ [dispensedPhoto]) s2
  end.

Definition handleDragStart (id : string) (s : State) : State :=
  let s1 := setHighestZIndex (highestZIndex s + 1) s in
  setDispensedPhotos
    (map (fun p =>
            if FramedPhotoData.id p =? id
            then withZIndex p (highestZIndex s1)
            else p)) s1.

(** [snapPhoto] changes none of the modelled cells before [grabFrame]
    settles (see [snapped]). *)
Definition handleCameraClick (deskRef : option Desk) (u1 u2 u3 : Q)
    (s : State) : State :=
  if cameraStream s then s else ejectPhoto deskRef u1 u2 u3 s.

(** *** processPhotos

    [processPhotos] is asynchronous.  A call that passes its guard leaves a
    suspended run behind: the [uploads] of the render it was called in (the
    closure's array, not the live state), [total], the loop index [i] and
    the local [newQueue].  The two timed waits change no state; a run is
    resumed once per item (from the settling of [createPolaroidFrame] to
    [setProgress]) and once more after the last wait, for the four setters
    that end it.  Other handlers run between two resumptions. *)
Record Run := {
  seen : list Uploaded;
  total : nat;
  i : nat;
  newQueue : list Framed
}.

Section Host.
Variable canvasDim : Q -> Q.
Variable toDataURL : list Framer.CanvasCall -> string.

(** The body of [try]/[catch] for one item: what is pushed on [newQueue]
    ([width] takes its default, 600). *)
Definition framedOrSkipped (photo : Uploaded) (host : Framer.Host)
    : list Framed :=
  match Framer.createPolaroidFrame canvasDim toDataURL host
          (UploadedPhoto.url photo) (UploadedPhoto.caption photo) 600 with
  | Framer.Resolved framedBase64 =>
      [ FramedPhotoData.make (UploadedPhoto.id photo) (UploadedPhoto.url photo)
          framedBase64 0 0 0 0 1 ]
  | Framer.Rejected _ => []
  end.

(** The guard, the two setters and the snapshot. *)
Definition processPhotos (s : State) : State * option Run :=
  if (List.length (uploads s) =? 0)%nat || isProcessing s then (s, None)
  else
    let s1 := if cameraStream s then stopCamera s else s in
    let s2 := setIsProcessing true s1 in
    let s3 := setProgress 0 s2 in
    (s3, Some {| seen := uploads s; total := List.length (uploads s);
                 i := 0; newQueue := [] |}).

(** One turn of the loop, for [i < total]. *)
Definition iteration (host : Framer.Host) (r : Run) (s : State)
    : State * Run :=
  let pushed :=
    match nth_error (seen r) (i r) with
    | Some photo => framedOrSkipped photo host
    | None => []      (* [photo.url] throws inside [try] *)
    end in
  (setProgress ((ofNat (i r + 1) / ofNat (total r)) * 100)%Q s,
   {| seen := seen r; total := total r; i := (i r + 1)%nat;
      newQueue := newQueue r ++ pushed |}).

(** After the loop. *)
Definition finish (r : Run) (s : State) : State :=
  let s1 := setProcessingQueue (fun prev => prev ++ newQueue r) s in
  let s2 := setUploads (fun _ => []) s1 in
  let s3 := setIsProcessing false s2 in
  setProgress 0 s3.

Definition resume (host : Framer.Host) (r : Run) (s : State)
    : State * option Run :=
  if (i r <? total r)%nat
  then let (s', r') := iteration host r s in (s', Some r')
  else (finish r s, None).

(** *** The event loop

    One event is one handler call or one resumption of the run; React
    renders between two events, so every handler reads the state its
    predecessor left. *)
Inductive Event :=
| FileUpload (files : option (list (string * string)))
| CameraStarted
| StopCamera
| Snapped (id url : string)
| RemoveUpload (id : string)
| UpdateCaption (id text : string)
| DeleteDispensedPhoto (id : string)
| UpdatePhotoScale (id : string) (delta : Q)
| ProcessPhotos
| Resume (host : Framer.Host)
| CameraClick (deskRef : option Desk) (u1 u2 u3 : Q)
| DragStart (id : string).

Definition Config : Type := State * option Run.

Definition initialConfig : Config := (initialState, None).

(** A call of [processPhotos] that passes its guard leaves its run in the
    slot; no run is suspended at that moment (see [guarded]). *)
Definition step (c : Config) (e : Event) : Config :=
  let (s, run) := c in
  match e with
  | FileUpload files => (handleFileUpload files s, run)
  | CameraStarted => (setCameraStream true s, run)
  | StopCamera => (stopCamera s, run)
  | Snapped id url => (snapped id url s, run)
  | RemoveUpload id => (removeUpload id s, run)
  | UpdateCaption id text => (updateCaption id text s, run)
  | DeleteDispensedPhoto id => (deleteDispensedPhoto id s, run)
  | UpdatePhotoScale id delta => (updatePhotoScale id delta s, run)
  | ProcessPhotos =>
      match processPhotos s with
      | (s', Some r) => (s', Some r)
      | (s', None) => (s', run)
      end
  | Resume host =>
      match run with
      | Some r => resume host r s
      | None => (s, None)
      end
  | CameraClick deskRef u1 u2 u3 => (handleCameraClick deskRef u1 u2 u3 s, run)
  | DragStart id => (handleDragStart id s, run)
  end.

Definition steps (c : Config) (es : list Event) : Config :=
  fold_left step es c.

(** The host answers carried by the resumptions of a trace, in order. *)
Definition answers (es : list Event) : list Framer.Host :=
  flat_map (fun e => match e with Resume h => [h] | _ => [] end) es.

(** Item by item, what a batch leaves when the [k]-th item gets the
    [k]-th answer. *)
Definition developed (batch : list Uploaded) (hosts : list Framer.Host)
    : list Framed :=
  flat_map (fun ph => framedOrSkipped (fst ph) (snd ph)) (combine batch hosts).

(** Whether framing an item succeeds under an answer. *)
Definition frames (host : Framer.Host) : bool :=
  match Framer.onload host with
  | Some _ => Framer.context2d host
  | None => false
  end.

(** A suspended run goes with [isProcessing] set. *)
Definition guarded (c : Config) : Prop :=
  match snd c with
  | Some _ => isProcessing (fst c) = true
  | None => True
  end.

End Host.

(** What an artifact carries from the queue to the desk. *)
Definition content (p : Framed) : string * string * string :=
  (FramedPhotoData.id p, FramedPhotoData.originalUrl p,
   FramedPhotoData.framedUrl p).

(** [ejectPhoto] called once per element of [draws]. *)
Definition ejectAll (draws : list (option Desk * (Q * Q * Q))) (s : State)
    : State :=
  fold_left
    (fun s d =>
       match d with
       | (deskRef, (u1, u2, u3)) => ejectPhoto deskRef u1 u2 u3 s
       end) draws s.

End App.

(** ** Sample data for the concrete runs *)
Module Sample.
Import App.

Definition canvasDim (v : Q) : Q := v.
Definition toDataURL (calls : list Framer.CanvasCall) : string :=
  "data:image/png;base64".

Definition landscape : Framer.Host :=
  {| Framer.onload := Some {| Framer.width := 800; Framer.height := 400 |};
     Framer.context2d := true |}.
Definition portrait : Framer.Host :=
  {| Framer.onload := Some {| Framer.width := 400; Framer.height := 800 |};
     Framer.context2d := true |}.
Definition broken : Framer.Host :=
  {| Framer.onload := None; Framer.context2d := true |}.

Definition photoA := UploadedPhoto.make "a" "blob:a" "A".
Definition photoB := UploadedPhoto.make "b" "blob:b" "".
Definition photoC := UploadedPhoto.make "c" "blob:c" "C".

Definition pending (ups : list Uploaded) : State :=
  setUploads (fun _ => ups) initialState.

Definition artifact (id : string) : Framed :=
  FramedPhotoData.make id ("blob:" ++ id) "data:image/png;base64" 0 0 0 0 1.

Definition queued (q : list Framed) : State :=
  setProcessingQueue (fun _ => q) initialState.

Definition placedA : Framed :=
  FramedPhotoData.make "a" "blob:a" "data:image/png;base64" 60 70 5 10 1.

Definition desk (w h : N) : option Desk :=
  Some {| clientWidth := w; clientHeight := h |}.

(** Two uploads are developed, the first is released, dragged, and then
    the second is released. *)
Definition dragThenEject : list Event :=
  [ FileUpload (Some [("a", "blob:a"); ("b", "blob:b")]);
    ProcessPhotos;
    Resume landscape; Resume portrait; Resume landscape;
    CameraClick (desk 1000 800) 0.5 0.5 0.5;
    DragStart "a";
    CameraClick (desk 1000 800) 0.25 0.25 0.25 ].

(** Two uploads, the first of which cannot be decoded. *)
Definition firstFails : list Event :=
  [ FileUpload (Some [("a", "blob:a"); ("b", "blob:b")]);
    ProcessPhotos;
    Resume broken ].

Definition idAndZIndex (c : Config) : list (string * Z) :=
  map (fun p => (FramedPhotoData.id p, FramedPhotoData.zIndex p))
    (dispensedPhotos (fst c)).

End Sample.

(** ** The action button of App.tsx and the invariants of the event loop *)
Module View.
Import App.

(** [disabled={(uploads.length === 0 && !cameraStream) || isProcessing}] *)
Definition actionDisabled (s : State) : bool :=
  ((List.length (uploads s) =? 0)%nat && negb (cameraStream s))
  || isProcessing s.

(** [onClick={cameraStream ? snapPhoto : processPhotos}]; [snapPhoto]
    changes none of the modelled cells before [grabFrame] settles. *)
Definition actionOnClick (s : State) : State * option Run :=
  if cameraStream s then (s, None) else processPhotos s.

End View.

(** A string without a character that is not white space. *)
Definition blank (s : string) : bool :=
  forallb Framer.isWhiteSpace (Framer.codePoints s).

(** Captions of white space that is not ASCII: U+00A0, U+3000 and U+FEFF
    in UTF-8. *)
Definition noBreakSpace : string :=
  String (ascii_of_nat 194) (String (ascii_of_nat 160) EmptyString).
Definition ideographicSpace : string :=
  String (ascii_of_nat 227)
    (String (ascii_of_nat 128) (String (ascii_of_nat 128) EmptyString)).
Definition byteOrderMark : string :=
  String (ascii_of_nat 239)
    (String (ascii_of_nat 187) (String (ascii_of_nat 191) EmptyString)).

(** What holds of the desk in every configuration the event loop reaches:
    the counter is at least its initial value, and every photo on the desk
    has a scale in [0.5, 2.5] and a z-index between 10 and the counter. *)
Definition photoInRange (s : App.State) (p : App.Framed) : Prop :=
  (0.5 <= App.FramedPhotoData.scale p <= 2.5)%Q /\
  (10 <= App.FramedPhotoData.zIndex p <= App.highestZIndex s)%Z.

Definition deskInvariant (s : App.State) : Prop :=
  (10 <= App.highestZIndex s)%Z /\
  Forall (photoInRange s) (App.dispensedPhotos s).

(** What holds of the flag and of the progress value: with a suspended run
    the flag is set and the value is a percentage, without one the flag is
    clear and the value is 0. *)
Definition runInvariant (c : App.Config) : Prop :=
  match snd c with
  | Some _ =>
      App.isProcessing (fst c) = true /\
      (0 <= App.progress (fst c) <= 100)%Q
  | None =>
      App.isProcessing (fst c) = false /\ App.progress (fst c) = 0%Q
  end.

(** The clamp of the specification, in its words: a value below the lower
    bound becomes the bound, a value above the upper bound becomes that
    bound, any other value is kept. *)
Definition clamp (v lo hi : Q) : Q :=
  if Qlt_le_dec v lo then lo
  else if Qlt_le_dec hi v then hi
  else v.

(** * Properties of the framer *)

Section FramerFacts.
Import Framer.

Lemma ofN_nonneg (n : N) : (0 <= ofN n)%Q.
Proof.
  unfold ofN. change 0%Q with (inject_Z 0).
  rewrite <- Zle_Qle. lia.
Qed.

Lemma ofN_lt (a b : N) : (a < b)%N <-> (ofN a < ofN b)%Q.
Proof. unfold ofN. rewrite <- Zlt_Qlt. lia. Qed.

Lemma ofN_le (a b : N) : (a <= b)%N <-> (ofN a <= ofN b)%Q.
Proof. unfold ofN. rewrite <- Zle_Qle. lia. Qed.

(** The test [sourceAspect > 1] is the test [img.width > img.height], also
    when a dimension is zero. *)
Lemma aspect_test (w h : N) :
  greaterThan (divide w h) 1 = (h <? w)%N.
Proof.
  unfold divide.
  destruct (N.eqb_spec h 0) as [-> | Hh].
  - destruct (N.eqb_spec w 0) as [-> | Hw]; cbn.
    + reflexivity.
    + symmetry. apply N.ltb_lt. lia.
  - assert (Hpos : (0 < ofN h)%Q).
    { change 0%Q with (ofN 0). apply ofN_lt. lia. }
    cbn. destruct (Qlt_le_dec 1 (ofN w / ofN h)) as [Hlt | Hle];
      symmetry.
    + apply N.ltb_lt. apply ofN_lt.
      apply (Qmult_lt_r _ _ _ Hpos) in Hlt.
      rewrite Qmult_1_l in Hlt.
      unfold Qdiv in Hlt. rewrite <- Qmult_assoc in Hlt.
      rewrite (Qmult_comm (/ ofN h)) in Hlt.
      rewrite Qmult_inv_r in Hlt by lra.
      lra.
    + apply N.ltb_ge. apply ofN_le.
      apply (Qmult_le_r _ _ _ Hpos) in Hle.
      rewrite Qmult_1_l in Hle.
      unfold Qdiv in Hle. rewrite <- Qmult_assoc in Hle.
      rewrite (Qmult_comm (/ ofN h)) in Hle.
      rewrite Qmult_inv_r in Hle by lra.
      lra.
Qed.

Variable canvasDim : Q -> Q.




(** C4: called on an image that decodes, the framer resolves with the
    encoding of a drawing whose [drawImage] takes from the source a centred
    square: for a wide image ([width > height]) its side is the image
    height, it starts at [sx = (width - height) / 2], [sy = 0]; otherwise
    its side is the image width and it starts at [sx = 0],
    [sy = (height - width) / 2].  The trims on opposite sides are equal,
    the square lies inside the image, and it is drawn onto exactly the
    photo region, itself a square. *)
Theorem centerCrop_centered_square
    (toDataURL : list CanvasCall -> string) (host : Host) (img : Image)
    (imageUrl text : string) (w : Q) :
  onload host = Some img ->
  context2d host = true ->
  let c := centerCrop img in
  let l := layout w in
  createPolaroidFrame canvasDim toDataURL host imageUrl text w
    = Resolved (toDataURL (draw canvasDim img text w)) /\
  c = (if (height img <? width img)%N
       then {| sx := ((ofN (width img) - ofN (height img)) / 2)%Q;
               sy := 0%Q;
               sWidth := ofN (height img); sHeight := ofN (height img) |}
       else {| sx := 0%Q;
               sy := ((ofN (height img) - ofN (width img)) / 2)%Q;
               sWidth := ofN (width img); sHeight := ofN (width img) |}) /\
  sWidth c = sHeight c /\
  photoWidth l = photoHeight l /\
  (sx c == ofN (width img) - (sx c + sWidth c))%Q /\
  (sy c == ofN (height img) - (sy c + sHeight c))%Q /\
  (0 <= sx c)%Q /\ (0 <= sy c)%Q /\
  nth_error (draw canvasDim img text w) 6 =
    Some (DrawImage (sx c) (sy c) (sWidth c) (sHeight c)
            (padding l) (padding l) (photoWidth l) (photoHeight l)) /\
  nth_error (draw canvasDim img text w) 5 =
    Some (FillRect (padding l) (padding l) (photoWidth l) (photoHeight l)).
Proof.
  intros Himg Hctx. cbv zeta.
  split.
  { unfold createPolaroidFrame. rewrite Himg, Hctx. reflexivity. }
  assert (Hdraw :
    nth_error (draw canvasDim img text w) 6 =
      Some (DrawImage (sx (centerCrop img)) (sy (centerCrop img))
              (sWidth (centerCrop img)) (sHeight (centerCrop img))
              (padding (layout w)) (padding (layout w))
              (photoWidth (layout w)) (photoHeight (layout w))) /\
    nth_error (draw canvasDim img text w) 5 =
      Some (FillRect (padding (layout w)) (padding (layout w))
              (photoWidth (layout w)) (photoHeight (layout w))))
    by (split; reflexivity).
  revert Hdraw. generalize (draw canvasDim img text w) as calls.
  intros calls [Hdraw Hfill].
  unfold centerCrop in *. rewrite aspect_test in *.
  destruct (N.ltb_spec (height img) (width img)) as [Hlt | Hge];
    cbn [sx sy sWidth sHeight] in *.
  - apply ofN_lt in Hlt.
    repeat split; try reflexivity; try assumption; try field; try lra.
    apply Qle_shift_div_l; lra.
  - apply ofN_le in Hge.
    repeat split; try reflexivity; try assumption; try field; try lra.
    apply Qle_shift_div_l; lra.
Qed.

End FramerFacts.

(** * Properties of the desk: scaling, placement, release *)

Section DeskFacts.
Import App.

Lemma orElse_nonzero (v d : Q) : ~ (v == 0)%Q -> orElse v d = v.
Proof.
  intros Hv. unfold orElse.
  destruct (Qeq_bool v 0) eqn:E; [ | reflexivity].
  apply Qeq_bool_iff in E. contradiction.
Qed.

Lemma max_min_is_clamp (v lo hi : Q) :
  (lo <= hi)%Q -> (Qmax lo (Qmin hi v) == clamp v lo hi)%Q.
Proof.
  intros Hb. unfold clamp.
  destruct (Qlt_le_dec v lo) as [Hlo | Hlo].
  - rewrite (Q.min_r hi v) by lra. rewrite Q.max_l by lra. reflexivity.
  - destruct (Qlt_le_dec hi v) as [Hhi | Hhi].
    + rewrite (Q.min_l hi v) by lra. rewrite Q.max_r by lra. reflexivity.
    + rewrite (Q.min_r hi v) by lra. rewrite Q.max_r by lra. reflexivity.
Qed.

Lemma clamp_bounds (v lo hi : Q) :
  (lo <= hi)%Q -> (lo <= clamp v lo hi <= hi)%Q.
Proof.
  intros Hb. unfold clamp.
  destruct (Qlt_le_dec v lo); [lra | ].
  destruct (Qlt_le_dec hi v); lra.
Qed.

Lemma clamp_monotone (v v' lo hi : Q) :
  (lo <= hi)%Q -> (v <= v')%Q -> (clamp v lo hi <= clamp v' lo hi)%Q.
Proof.
  intros Hb Hv. unfold clamp.
  destruct (Qlt_le_dec v lo), (Qlt_le_dec v' lo),
    (Qlt_le_dec hi v), (Qlt_le_dec hi v'); lra.
Qed.

Lemma clamp_inside (v lo hi : Q) :
  (lo <= v <= hi)%Q -> (clamp v lo hi == v)%Q.
Proof.
  intros Hv. unfold clamp.
  destruct (Qlt_le_dec v lo); [lra | ].
  destruct (Qlt_le_dec hi v); lra.
Qed.

Lemma nth_error_updatePhotoScale (s : State) (id : string) (delta : Q)
    (n : nat) :
  nth_error (dispensedPhotos (updatePhotoScale id delta s)) n =
  option_map
    (fun p => if FramedPhotoData.id p =? id
              then withScale p (rescaled p delta) else p)
    (nth_error (dispensedPhotos s) n).
Proof.
  unfold updatePhotoScale, setDispensedPhotos; cbn [dispensedPhotos].
  apply nth_error_map.
Qed.

(** C10: for a placed item whose scale lies in [0.5, 2.5],
    [updatePhotoScale] with any [delta] stores
    clamp(scale + delta, 0.5, 2.5) in that item: the stored scale is again
    in [0.5, 2.5] (the request is clamped, the handler has no rejecting
    path), it does not go below the old scale for [delta >= 0] nor above it
    for [delta <= 0], and a larger [delta] never gives a smaller scale. *)
Theorem updatePhotoScale_clamps
    (s : State) (id : string) (delta : Q) (n : nat) (p : Framed) :
  nth_error (dispensedPhotos s) n = Some p ->
  FramedPhotoData.id p = id ->
  (0.5 <= FramedPhotoData.scale p <= 2.5)%Q ->
  exists p',
    nth_error (dispensedPhotos (updatePhotoScale id delta s)) n = Some p' /\
    p' = withScale p (FramedPhotoData.scale p') /\
    (FramedPhotoData.scale p'
       == clamp (FramedPhotoData.scale p + delta) 0.5 2.5)%Q /\
    (0.5 <= FramedPhotoData.scale p' <= 2.5)%Q /\
    ((0 <= delta)%Q -> (FramedPhotoData.scale p <= FramedPhotoData.scale p')%Q) /\
    ((delta <= 0)%Q -> (FramedPhotoData.scale p' <= FramedPhotoData.scale p)%Q) /\
    (forall delta', (delta <= delta')%Q ->
       (FramedPhotoData.scale p' <= rescaled p delta')%Q).
Proof.
  intros Hn Hid Hrange.
  assert (Hb : (0.5 <= 2.5)%Q) by lra.
  assert (Hscale : orElse (FramedPhotoData.scale p) 1 = FramedPhotoData.scale p).
  { apply orElse_nonzero. intros H0. rewrite H0 in Hrange. lra. }
  assert (Hres : forall d,
    (rescaled p d == clamp (FramedPhotoData.scale p + d) 0.5 2.5)%Q).
  { intros d. unfold rescaled. rewrite Hscale. apply max_min_is_clamp, Hb. }
  exists (withScale p (rescaled p delta)).
  rewrite nth_error_updatePhotoScale, Hn. cbn [option_map].
  rewrite Hid, String.eqb_refl.
  cbn [withScale FramedPhotoData.scale].
  split; [reflexivity | ]. split; [reflexivity | ].
  split; [apply Hres | ].
  split; [rewrite Hres; apply clamp_bounds, Hb | ].
  split; [ | split].
  - intros Hd. rewrite Hres.
    rewrite <- (clamp_inside (FramedPhotoData.scale p) 0.5 2.5) at 1
      by exact Hrange.
    apply clamp_monotone; [exact Hb | lra].
  - intros Hd. rewrite Hres.
    rewrite <- (clamp_inside (FramedPhotoData.scale p) 0.5 2.5) at 2
      by exact Hrange.
    apply clamp_monotone; [exact Hb | lra].
  - intros delta' Hd. rewrite !Hres.
    apply clamp_monotone; [exact Hb | lra].
Qed.

Lemma ejectPhoto_empty (deskRef : option Desk) (u1 u2 u3 : Q) (s : State) :
  processingQueue s = [] -> ejectPhoto deskRef u1 u2 u3 s = s.
Proof. intros H. unfold ejectPhoto. rewrite H. reflexivity. Qed.

(** The item [ejectPhoto] puts on the desk for the head [nextPhoto]. *)
Lemma ejectPhoto_head (deskRef : option Desk) (u1 u2 u3 : Q) (s : State)
    (nextPhoto : Framed) (remainingQueue : list Framed) :
  processingQueue s = nextPhoto :: remainingQueue ->
  let s' := ejectPhoto deskRef u1 u2 u3 s in
  exists placed,
    dispensedPhotos s' = dispensedPhotos s ++ [placed] /\
    processingQueue s' = remainingQueue /\
    uploads s' = uploads s /\
    highestZIndex s' = (highestZIndex s + 1)%Z /\
    FramedPhotoData.id placed = FramedPhotoData.id nextPhoto /\
    FramedPhotoData.originalUrl placed = FramedPhotoData.originalUrl nextPhoto /\
    FramedPhotoData.framedUrl placed = FramedPhotoData.framedUrl nextPhoto /\
    FramedPhotoData.zIndex placed = highestZIndex s /\
    FramedPhotoData.scale placed = 1%Q /\
    FramedPhotoData.x placed =
      (u1 * (sizeOr (option_map clientWidth deskRef) 300 - 150 - 50 * 2)
       + 50)%Q /\
    FramedPhotoData.y placed =
      (u2 * (sizeOr (option_map clientHeight deskRef) 500 - 200 - 50 * 2)
       + 50)%Q /\
    FramedPhotoData.rotation placed = (u3 * 40 - 20)%Q.
Proof.
  intros H. cbv zeta. unfold ejectPhoto. rewrite H.
  eexists. cbn. repeat split.
Qed.

Lemma sizeOr_large (n : N) (d : Q) :
  (0 < n)%N -> sizeOr (Some n) d = ofN n.
Proof.
  intros Hn. unfold sizeOr. apply orElse_nonzero.
  intros H0. unfold ofN, Qeq in H0. cbn in H0. lia.
Qed.

(** C9: on a desk at least 250 wide and 300 high, with the three random
    values in [0, 1), the item put on the desk has 50 <= x and
    x + 150 <= width - 50, 50 <= y and y + 200 <= height - 50, and a
    rotation between -20 and 20 degrees. *)
Theorem ejectPhoto_keeps_margin
    (s : State) (desk : Desk) (u1 u2 u3 : Q)
    (nextPhoto : Framed) (remainingQueue : list Framed) :
  processingQueue s = nextPhoto :: remainingQueue ->
  (250 <= clientWidth desk)%N ->
  (300 <= clientHeight desk)%N ->
  (0 <= u1 < 1)%Q -> (0 <= u2 < 1)%Q -> (0 <= u3 < 1)%Q ->
  exists placed,
    dispensedPhotos (ejectPhoto (Some desk) u1 u2 u3 s)
      = dispensedPhotos s ++ [placed] /\
    (50 <= FramedPhotoData.x placed)%Q /\
    (FramedPhotoData.x placed + 150 <= ofN (clientWidth desk) - 50)%Q /\
    (50 <= FramedPhotoData.y placed)%Q /\
    (FramedPhotoData.y placed + 200 <= ofN (clientHeight desk) - 50)%Q /\
    (-20 <= FramedPhotoData.rotation placed <= 20)%Q.
Proof.
  intros Hq Hw Hh H1 H2 H3.
  destruct (ejectPhoto_head (Some desk) u1 u2 u3 s _ _ Hq)
    as (placed & Hd & _ & _ & _ & _ & _ & _ & _ & _ & Hx & Hy & Hr).
  exists placed. split; [exact Hd | ].
  cbn [option_map] in Hx, Hy.
  rewrite sizeOr_large in Hx by lia.
  rewrite sizeOr_large in Hy by lia.
  rewrite Hx, Hy, Hr.
  apply ofN_le in Hw. apply ofN_le in Hh.
  change (ofN 250) with 250%Q in Hw. change (ofN 300) with 300%Q in Hh.
  repeat split; nra.
Qed.

Lemma ejectAll_drains (draws : list (option Desk * (Q * Q * Q))) :
  forall s,
    List.length draws = List.length (processingQueue s) ->
    processingQueue (ejectAll draws s) = [] /\
    uploads (ejectAll draws s) = uploads s /\
    map content (dispensedPhotos (ejectAll draws s))
      = map content (dispensedPhotos s) ++ map content (processingQueue s).
Proof.
  induction draws as [ | [deskRef [[u1 u2] u3]] draws IH]; intros s Hlen.
  - destruct (processingQueue s) eqn:Hq; [ | discriminate].
    cbn. rewrite Hq, app_nil_r. auto.
  - destruct (processingQueue s) as [ | nextPhoto rest] eqn:Hq;
      [discriminate | ].
    destruct (ejectPhoto_head deskRef u1 u2 u3 s _ _ Hq)
      as (placed & Hd & Hrest & Hup & _ & Hid & Hor & Hfr & _).
    change (ejectAll ((deskRef, (u1, u2, u3)) :: draws) s)
      with (ejectAll draws (ejectPhoto deskRef u1 u2 u3 s)).
    destruct (IH (ejectPhoto deskRef u1 u2 u3 s)) as (IH1 & IH2 & IH3).
    { rewrite Hrest. cbn in Hlen. lia. }
    rewrite IH1, IH2, IH3, Hd, Hrest, Hup, map_app, <- app_assoc.
    repeat split. do 2 f_equal.
    cbn. unfold content. rewrite Hid, Hor, Hfr. reflexivity.
Qed.

(** C7: [ejectPhoto] on an empty queue changes nothing; on a non-empty queue
    it removes the head and appends to the desk an item with the head's id
    and images; and called as many times as the queue is long it empties
    the queue and leaves the items on the desk in queue order, after those
    that were there. *)
Theorem ejectPhoto_fifo
    (s : State) (draws : list (option Desk * (Q * Q * Q)))
    (deskRef : option Desk) (u1 u2 u3 : Q) :
  List.length draws = List.length (processingQueue s) ->
  (processingQueue s = [] -> ejectPhoto deskRef u1 u2 u3 s = s) /\
  (forall nextPhoto remainingQueue,
     processingQueue s = nextPhoto :: remainingQueue ->
     processingQueue (ejectPhoto deskRef u1 u2 u3 s) = remainingQueue /\
     uploads (ejectPhoto deskRef u1 u2 u3 s) = uploads s /\
     exists placed,
       dispensedPhotos (ejectPhoto deskRef u1 u2 u3 s)
         = dispensedPhotos s ++ [placed] /\
       content placed = content nextPhoto) /\
  processingQueue (ejectAll draws s) = [] /\
  map content (dispensedPhotos (ejectAll draws s))
    = map content (dispensedPhotos s) ++ map content (processingQueue s).
Proof.
  intros Hlen. split; [apply ejectPhoto_empty | ]. split.
  - intros nextPhoto remainingQueue Hq.
    destruct (ejectPhoto_head deskRef u1 u2 u3 s _ _ Hq)
      as (placed & Hd & Hrest & Hup & _ & Hid & Hor & Hfr & _).
    split; [exact Hrest | ]. split; [exact Hup | ].
    exists placed. split; [exact Hd | ].
    unfold content. rewrite Hid, Hor, Hfr. reflexivity.
  - destruct (ejectAll_drains draws s Hlen) as (H1 & _ & H3). auto.
Qed.

End DeskFacts.

(** * Properties of the developing run *)

Section RunFacts.
Import App.
Variable canvasDim : Q -> Q.
Variable toDataURL : list Framer.CanvasCall -> string.

Local Abbreviation step := (App.step canvasDim toDataURL).
Local Abbreviation steps := (App.steps canvasDim toDataURL).
Local Abbreviation developed := (App.developed canvasDim toDataURL).
Local Abbreviation framedOrSkipped := (App.framedOrSkipped canvasDim toDataURL).

Lemma steps_app (c : Config) (es es' : list Event) :
  steps c (es ++ es') = steps (steps c es) es'.
Proof. apply fold_left_app. Qed.

Lemma answers_other (e : Event) (es : list Event) :
  (forall h, e <> Resume h) -> answers (e :: es) = answers es.
Proof.
  intros He. unfold answers. cbn [flat_map].
  destruct e as [files | | | ? ? | ? | ? ? | ? | ? ? | | host | ? ? ? ? | ?]; try reflexivity.
  exfalso. apply (He host). reflexivity.
Qed.

(** A handler other than the resumption leaves a suspended run, the flag
    and the progress value as they are; this includes a second
    [processPhotos], which stops at its guard. *)
Lemma step_other (s : State) (r : Run) (e : Event) :
  isProcessing s = true ->
  (forall h, e <> Resume h) ->
  exists s',
    step (s, Some r) e = (s', Some r) /\
    isProcessing s' = true /\ progress s' = progress s.
Proof.
  intros Hp He.
  destruct e as [files | | | ? ? | ? | ? ? | ? | ? ? | | host | ? ? ? ? | ?]; cbn [App.step];
    try (eexists; split; [reflexivity | split; [exact Hp | reflexivity]]).
  - destruct files; cbn;
      (eexists; split; [reflexivity | split; [exact Hp | reflexivity]]).
  - unfold stopCamera. destruct (cameraStream s);
      (eexists; split; [reflexivity | split; [exact Hp | reflexivity]]).
  - unfold processPhotos. rewrite Hp, orb_true_r.
    eexists; split; [reflexivity | split; [exact Hp | reflexivity]].
  - exfalso. apply (He host). reflexivity.
  - unfold handleCameraClick, ejectPhoto.
    destruct (cameraStream s), (processingQueue s);
      (eexists; split; [reflexivity | split; [exact Hp | reflexivity]]).
Qed.

Lemma developed_nil (batch : list Uploaded) : developed batch [] = [].
Proof. unfold App.developed. rewrite combine_nil. reflexivity. Qed.

Lemma developed_cons (photo : Uploaded) (batch : list Uploaded)
    (h : Framer.Host) (hs : list Framer.Host) :
  developed (photo :: batch) (h :: hs)
  = framedOrSkipped photo h ++ developed batch hs.
Proof. reflexivity. Qed.

Lemma skipn_nth (A : Type) (l : list A) (n : nat) (a : A) :
  nth_error l n = Some a -> skipn n l = a :: skipn (S n) l.
Proof.
  revert n. induction l as [ | b l IH]; intros [ | n] H; try discriminate.
  - injection H as ->. reflexivity.
  - cbn in H. apply IH in H. exact H.
Qed.

(** The loop invariant, over any interleaving: after a trace whose
    resumptions do not exhaust the batch, the run is still suspended, has
    handled as many items as there were resumptions, in index order, and
    the last [setProgress] is the one of the last item handled. *)
Lemma run_in_flight (es : list Event) :
  forall (s : State) (r : Run),
    isProcessing s = true ->
    total r = List.length (seen r) ->
    (i r + List.length (answers es) <= total r)%nat ->
    exists s',
      steps (s, Some r) es =
        (s', Some {| seen := seen r; total := total r;
                     i := i r + List.length (answers es);
                     newQueue := newQueue r
                       ++ developed (skipn (i r) (seen r)) (answers es) |}) /\
      isProcessing s' = true /\
      progress s' =
        match answers es with
        | [] => progress s
        | _ :: _ =>
            (ofNat (i r + List.length (answers es)) / ofNat (total r) * 100)%Q
        end.
Proof.
  induction es as [ | e es IH]; intros s r Hp Htot Hle.
  - exists s. cbn [answers flat_map List.length].
    rewrite developed_nil, app_nil_r, Nat.add_0_r.
    destruct r; auto.
  - destruct e as [files | | | ? ? | ? | ? ? | ? | ? ? | | host | ? ? ? ? | ?];
      try (match goal with
           | |- context [App.steps _ _ _ (?e :: _)] =>
               destruct (step_other s r e Hp ltac:(discriminate))
                 as (s1 & Hstep & Hp1 & Hprog)
           end;
           rewrite answers_other in * by discriminate;
           destruct (IH s1 r Hp1 Htot Hle) as (s' & Hrun & Hp' & Hprog');
           exists s'; unfold App.steps in *; cbn [fold_left];
           rewrite Hstep, Hrun, <- Hprog;
           split; [reflexivity | split; [exact Hp' | exact Hprog']]).
    change (answers (Resume host :: es)) with (host :: answers es) in *.
    cbn [List.length] in *.
    assert (Hlt : (i r <? total r)%nat = true) by (apply Nat.ltb_lt; lia).
    unfold App.steps in *. cbn [fold_left App.step]. unfold resume.
    rewrite Hlt.
    cbn [iteration].
    destruct (nth_error (seen r) (i r)) as [photo | ] eqn:Hnth.
    2:{ apply nth_error_None in Hnth. lia. }
    edestruct (IH (setProgress (ofNat (i r + 1) / ofNat (total r) * 100) s)
                 {| seen := seen r; total := total r; i := i r + 1;
                    newQueue := newQueue r ++ framedOrSkipped photo host |})
      as (s' & Hrun & Hp' & Hprog'); cbn [seen total i newQueue];
      [exact Hp | exact Htot | lia | ].
    cbn [seen total i newQueue] in Hrun, Hprog'.
    exists s'. rewrite Hrun.
    rewrite (skipn_nth _ _ _ _ Hnth), developed_cons.
    replace (i r + 1 + List.length (answers es))%nat
      with (i r + S (List.length (answers es)))%nat in * by lia.
    replace (S (i r)) with (i r + 1)%nat by lia.
    rewrite <- app_assoc.
    split; [reflexivity | ]. split; [exact Hp' | ].
    rewrite Hprog'. destruct (answers es); cbn [progress setProgress].
    + cbn [List.length]. reflexivity.
    + reflexivity.
Qed.

Lemma processPhotos_starts (s : State) (run : option Run) :
  uploads s <> [] ->
  isProcessing s = false ->
  exists s0,
    step (s, run) ProcessPhotos =
      (s0, Some {| seen := uploads s; total := List.length (uploads s);
                   i := 0; newQueue := [] |}) /\
    isProcessing s0 = true /\ progress s0 = 0%Q.
Proof.
  intros Hne Hp. cbn [App.step]. unfold processPhotos. rewrite Hp.
  destruct (uploads s) as [ | p ps] eqn:Hu; [contradiction | ].
  cbn [List.length Nat.eqb orb].
  eexists. split; [reflexivity | ]. split; reflexivity.
Qed.

Lemma resume_finishes (s : State) (r : Run) (h : Framer.Host) :
  i r = total r -> step (s, Some r) (Resume h) = (finish r s, None).
Proof.
  intros Hi. cbn [App.step]. unfold resume.
  rewrite Hi, Nat.ltb_irrefl. reflexivity.
Qed.

(** A whole run under any interleaving: the state and the run just before
    the resumption that ends it. *)
Lemma run_to_the_end (s : State) (es : list Event) :
  uploads s <> [] ->
  isProcessing s = false ->
  (List.length (answers es) <= List.length (uploads s))%nat ->
  exists s',
    steps (step (s, None) ProcessPhotos) es =
      (s', Some {| seen := uploads s; total := List.length (uploads s);
                   i := List.length (answers es);
                   newQueue := developed (uploads s) (answers es) |}) /\
    isProcessing s' = true /\
    progress s' =
      match answers es with
      | [] => 0%Q
      | _ :: _ =>
          (ofNat (List.length (answers es))
             / ofNat (List.length (uploads s)) * 100)%Q
      end.
Proof.
  intros Hne Hp Hle.
  destruct (processPhotos_starts s None Hne Hp) as (s0 & Hstart & Hp0 & Hprog0).
  rewrite Hstart.
  destruct (run_in_flight es s0
              {| seen := uploads s; total := List.length (uploads s);
                 i := 0; newQueue := [] |} Hp0 eq_refl Hle)
    as (s' & Hrun & Hp' & Hprog').
  cbn [seen total i newQueue skipn app Nat.add] in Hrun, Hprog'.
  exists s'. rewrite Hprog0 in Hprog'. auto.
Qed.

Lemma step_guarded (c : Config) (e : Event) :
  guarded c -> guarded (step c e).
Proof.
  destruct c as [s [r | ]]; unfold guarded; cbn [fst snd]; intros Hg.
  - destruct e as [files | | | ? ? | ? | ? ? | ? | ? ? | | host | ? ? ? ? | ?];
      try (match goal with
           | |- context [App.step _ _ _ ?e] =>
               destruct (step_other s r e Hg ltac:(discriminate))
                 as (s1 & Hstep & Hp1 & _)
           end; rewrite Hstep; exact Hp1).
    cbn [App.step]. unfold resume.
    destruct (i r <? total r)%nat; cbn; [exact Hg | exact I].
  - destruct e as [files | | | ? ? | ? | ? ? | ? | ? ? | | host | ? ? ? ? | ?];
      cbn [App.step snd]; try exact I.
    unfold processPhotos.
    destruct ((List.length (uploads s) =? 0)%nat || isProcessing s);
      cbn; [exact I | reflexivity].
Qed.

Lemma steps_guarded (es : list Event) :
  forall c, guarded c -> guarded (steps c es).
Proof.
  induction es as [ | e es IH]; intros c Hg; [exact Hg | ].
  apply (IH (step c e)), step_guarded, Hg.
Qed.

(** The counter only grows. *)
Lemma highestZIndex_never_decreases (c : Config) (e : Event) :
  (highestZIndex (fst c) <= highestZIndex (fst (step c e)))%Z.
Proof.
  destruct c as [s run].
  destruct e as [files | | | ? ? | ? | ? ? | ? | ? ? | | host | ? ? ? ? | ?];
    cbn [App.step fst]; try (cbn; lia).
  - destruct files; cbn; lia.
  - unfold stopCamera. destruct (cameraStream s); cbn; lia.
  - unfold processPhotos.
    destruct ((List.length (uploads s) =? 0)%nat || isProcessing s);
      [cbn; lia | ].
    unfold stopCamera. destruct (cameraStream s); cbn; lia.
  - destruct run as [r | ]; [ | cbn; lia].
    unfold resume. destruct (i r <? total r)%nat; cbn; lia.
  - unfold handleCameraClick, ejectPhoto.
    destruct (cameraStream s), (processingQueue s); cbn; lia.
Qed.

(** C8: in every state the application can reach, [processPhotos] called
    with no uploads, or with [isProcessing] set, or while a run is
    suspended, returns at its guard: the state (collections, flag, progress)
    and the suspended run are what they were, and no run is started. *)
Theorem processPhotos_rejected (es : list Event) :
  let c := steps initialConfig es in
  uploads (fst c) = [] \/ isProcessing (fst c) = true \/ snd c <> None ->
  step c ProcessPhotos = c.
Proof.
  cbv zeta.
  assert (Hg : guarded (steps initialConfig es))
    by (apply steps_guarded; exact I).
  destruct (steps initialConfig es) as [s run].
  unfold guarded in Hg. cbn [fst snd] in *.
  intros H.
  assert (Hguard :
    ((List.length (uploads s) =? 0)%nat || isProcessing s) = true).
  { destruct H as [Hu | [Hp | Hr]].
    - rewrite Hu. reflexivity.
    - rewrite Hp. apply orb_true_r.
    - destruct run as [r | ]; [ | contradiction].
      rewrite Hg. apply orb_true_r. }
  cbn [App.step]. unfold processPhotos. rewrite Hguard. reflexivity.
Qed.

Lemma framedOrSkipped_frames (photo : Uploaded) (h : Framer.Host) :
  map FramedPhotoData.id (framedOrSkipped photo h)
  = if frames h then [UploadedPhoto.id photo] else [].
Proof.
  unfold App.framedOrSkipped, Framer.createPolaroidFrame, frames.
  destruct (Framer.onload h); [ | reflexivity].
  destruct (Framer.context2d h); reflexivity.
Qed.

Lemma framedOrSkipped_origin (photo : Uploaded) (h : Framer.Host)
    (a : Framed) :
  In a (framedOrSkipped photo h) ->
  FramedPhotoData.id a = UploadedPhoto.id photo /\
  FramedPhotoData.originalUrl a = UploadedPhoto.url photo.
Proof.
  unfold App.framedOrSkipped.
  destruct (Framer.createPolaroidFrame _ _ _ _ _ _); cbn.
  - intros [<- | []]. split; reflexivity.
  - intros [].
Qed.

(** The survivors of a batch are the items whose framing succeeded, in the
    order of the batch. *)
Lemma developed_ids (batch : list Uploaded) :
  forall hosts,
    map FramedPhotoData.id (developed batch hosts)
    = map (fun ph => UploadedPhoto.id (fst ph))
        (filter (fun ph => frames (snd ph)) (combine batch hosts)).
Proof.
  induction batch as [ | photo batch IH]; intros [ | h hosts];
    try reflexivity.
  rewrite developed_cons, map_app, framedOrSkipped_frames, IH.
  cbn [combine filter snd]. destruct (frames h); reflexivity.
Qed.

Lemma developed_origin (batch : list Uploaded) :
  forall hosts a,
    In a (developed batch hosts) ->
    exists photo,
      In photo batch /\
      FramedPhotoData.id a = UploadedPhoto.id photo /\
      FramedPhotoData.originalUrl a = UploadedPhoto.url photo.
Proof.
  induction batch as [ | photo batch IH]; intros [ | h hosts] a Ha;
    try contradiction.
  rewrite developed_cons in Ha. apply in_app_or in Ha.
  destruct Ha as [Ha | Ha].
  - exists photo. split; [left; reflexivity | ].
    apply (framedOrSkipped_origin _ _ _ Ha).
  - destruct (IH hosts a Ha) as (q & Hq & Hrest).
    exists q. split; [right; exact Hq | exact Hrest].
Qed.

(** C2, as amended: in a run over [n] uploads, once [k] items have been
    handled ([1 <= k <= n]) the progress value is [(k / n) * 100], whether
    their framing succeeded or failed and whatever other handlers ran in
    between; the resumption after the last item leaves no upload and the
    progress value 0. *)
Theorem progress_after_each_item
    (s : State) (es : list Event) (last : Framer.Host) :
  uploads s <> [] ->
  isProcessing s = false ->
  let n := List.length (uploads s) in
  let k := List.length (answers es) in
  let c := steps (step (s, None) ProcessPhotos) es in
  (1 <= k <= n)%nat ->
  progress (fst c) = (ofNat k / ofNat n * 100)%Q /\
  (k = n ->
   uploads (fst (step c (Resume last))) = [] /\
   progress (fst (step c (Resume last))) = 0%Q).
Proof.
  intros Hne Hp n k c [Hk1 Hkn]. subst n k c.
  destruct (run_to_the_end s es Hne Hp Hkn) as (s' & Hrun & _ & Hprog).
  rewrite Hrun. cbn [fst]. split.
  - rewrite Hprog. destruct (answers es); [cbn in Hk1; lia | reflexivity].
  - intros Hk. rewrite resume_finishes by exact Hk.
    split; reflexivity.
Qed.

(** C3: a run handles the uploads of the moment [processPhotos] was called
    and nothing else.  Whatever handlers run while it is suspended (uploads
    and snapshots from the camera among them), the resumption after the last
    item appends to the queue the artifacts of those first uploads only,
    each with the id and the url of one of them, and sets the upload list
    to empty, so that what was added meanwhile is dropped unframed. *)
Theorem late_uploads_are_discarded
    (s : State) (es : list Event) (last : Framer.Host) :
  uploads s <> [] ->
  isProcessing s = false ->
  List.length (answers es) = List.length (uploads s) ->
  let c := steps (step (s, None) ProcessPhotos) es in
  let c' := step c (Resume last) in
  snd c' = None /\
  uploads (fst c') = [] /\
  processingQueue (fst c')
    = processingQueue (fst c) ++ developed (uploads s) (answers es) /\
  (forall a, In a (developed (uploads s) (answers es)) ->
     exists photo,
       In photo (uploads s) /\
       FramedPhotoData.id a = UploadedPhoto.id photo /\
       FramedPhotoData.originalUrl a = UploadedPhoto.url photo).
Proof.
  intros Hne Hp Hlen c c'. subst c c'.
  destruct (run_to_the_end s es Hne Hp ltac:(lia)) as (s' & Hrun & _ & _).
  rewrite Hrun, resume_finishes by exact Hlen.
  cbn [fst snd].
  split; [reflexivity | ]. split; [reflexivity | ].
  split; [reflexivity | ].
  apply developed_origin.
Qed.

(** C6: a run takes the uploads in array order, one per resumption: after
    [k] of them the items 0 .. k-1 have been handled and [newQueue] holds,
    in that order, the artifacts of those whose framing succeeded; an item
    whose framing fails adds nothing and the loop goes on.  After the last
    item, [newQueue] is appended to the queue as it is. *)
Theorem develop_preserves_order
    (s : State) (es : list Event) (last : Framer.Host) :
  uploads s <> [] ->
  isProcessing s = false ->
  (List.length (answers es) <= List.length (uploads s))%nat ->
  exists s' r,
    steps (step (s, None) ProcessPhotos) es = (s', Some r) /\
    seen r = uploads s /\
    i r = List.length (answers es) /\
    newQueue r = developed (uploads s) (answers es) /\
    map FramedPhotoData.id (newQueue r)
      = map (fun ph => UploadedPhoto.id (fst ph))
          (filter (fun ph => frames (snd ph))
             (combine (uploads s) (answers es))) /\
    (List.length (answers es) = List.length (uploads s) ->
     step (s', Some r) (Resume last) = (finish r s', None) /\
     processingQueue (finish r s') = processingQueue s' ++ newQueue r).
Proof.
  intros Hne Hp Hle.
  destruct (run_to_the_end s es Hne Hp Hle) as (s' & Hrun & _ & _).
  eexists s', _. split; [exact Hrun | ]. cbn [seen i newQueue].
  split; [reflexivity | ]. split; [reflexivity | ].
  split; [reflexivity | ]. split; [apply developed_ids | ].
  intros Hlen. split; [ | reflexivity].
  apply resume_finishes. exact Hlen.
Qed.

End RunFacts.

(** * Concrete runs *)

Section Runs.
Import App Sample.

Local Abbreviation run := (App.steps canvasDim toDataURL initialConfig).

Lemma updatePhotoScale_clamps_instance :
  nth_error (dispensedPhotos (setDispensedPhotos (fun _ => [placedA])
                                initialState)) 0 = Some placedA /\
  (0.5 <= FramedPhotoData.scale placedA <= 2.5)%Q /\
  exists p',
    nth_error
      (dispensedPhotos
         (updatePhotoScale "a" 2
            (setDispensedPhotos (fun _ => [placedA]) initialState))) 0
      = Some p' /\
    (FramedPhotoData.scale p' == 2.5)%Q.
Proof.
  split; [reflexivity | ].
  split; [cbn; lra | ].
  destruct (updatePhotoScale_clamps
              (setDispensedPhotos (fun _ => [placedA]) initialState)
              "a" 2 0 placedA eq_refl eq_refl ltac:(cbn; lra))
    as (p' & Hn & _ & Hs & _).
  exists p'. split; [exact Hn | ].
  rewrite Hs. reflexivity.
Defined.

Lemma ejectPhoto_keeps_margin_instance :
  processingQueue (queued [artifact "a"]) = [artifact "a"] /\
  exists placed,
    dispensedPhotos
      (ejectPhoto (desk 1000 800) 0.5 0.25 0.75 (queued [artifact "a"]))
      = [placed] /\
    (50 <= FramedPhotoData.x placed)%Q /\
    (FramedPhotoData.x placed + 150 <= 1000 - 50)%Q /\
    (50 <= FramedPhotoData.y placed)%Q /\
    (FramedPhotoData.y placed + 200 <= 800 - 50)%Q /\
    (-20 <= FramedPhotoData.rotation placed <= 20)%Q.
Proof.
  split; [reflexivity | ].
  apply (ejectPhoto_keeps_margin (queued [artifact "a"])
           {| clientWidth := 1000; clientHeight := 800 |}
           0.5 0.25 0.75 (artifact "a") []);
    [reflexivity | cbn; lia | cbn; lia | lra | lra | lra].
Defined.

Lemma ejectPhoto_fifo_instance :
  let s := queued [artifact "a"; artifact "b"] in
  let draws := [(desk 1000 800, (0.5, 0.5, 0.5)); (None, (0, 0, 0))] in
  List.length draws = List.length (processingQueue s) /\
  processingQueue (ejectAll draws s) = [] /\
  map content (dispensedPhotos (ejectAll draws s))
    = [content (artifact "a"); content (artifact "b")].
Proof.
  cbv zeta. split; [reflexivity | ].
  destruct (ejectPhoto_fifo (queued [artifact "a"; artifact "b"])
              [(desk 1000 800, (0.5, 0.5, 0.5)); (None, (0, 0, 0))]
              None 0 0 0 eq_refl)%Q
    as (_ & _ & Hq & Hd).
  split; [exact Hq | exact Hd].
Defined.

Lemma processPhotos_rejected_instance :
  let c := run [FileUpload (Some [("a", "blob:a")]); ProcessPhotos] in
  snd c <> None /\
  App.step canvasDim toDataURL c ProcessPhotos = c.
Proof.
  cbv zeta. split; [discriminate | ].
  apply (processPhotos_rejected canvasDim toDataURL
           [FileUpload (Some [("a", "blob:a")]); ProcessPhotos]).
  right. right. discriminate.
Defined.

Lemma progress_after_each_item_instance :
  let s := pending [photoA; photoB] in
  let c := App.steps canvasDim toDataURL
             (App.step canvasDim toDataURL (s, None) ProcessPhotos)
             [Resume broken] in
  uploads s <> [] /\
  isProcessing s = false /\
  progress (fst c) = (ofNat 1 / ofNat 2 * 100)%Q /\
  (progress (fst c) == 50)%Q.
Proof.
  cbv zeta. split; [discriminate | ]. split; [reflexivity | ].
  destruct (progress_after_each_item canvasDim toDataURL
              (pending [photoA; photoB]) [Resume broken] landscape
              ltac:(discriminate) eq_refl ltac:(cbn; lia))
    as [Hprog _].
  split; [exact Hprog | ].
  rewrite Hprog. reflexivity.
Defined.

Lemma late_uploads_are_discarded_instance :
  let s := pending [photoA] in
  let es := [FileUpload (Some [("late", "blob:late")]); Resume landscape] in
  let c := App.steps canvasDim toDataURL
             (App.step canvasDim toDataURL (s, None) ProcessPhotos) es in
  let c' := App.step canvasDim toDataURL c (Resume landscape) in
  map UploadedPhoto.id (uploads (fst c)) = ["a"; "late"] /\
  uploads (fst c') = [] /\
  map FramedPhotoData.id (processingQueue (fst c')) = ["a"].
Proof.
  cbv zeta. split; [reflexivity | ].
  destruct (late_uploads_are_discarded canvasDim toDataURL
              (pending [photoA])
              [FileUpload (Some [("late", "blob:late")]); Resume landscape]
              landscape ltac:(discriminate) eq_refl eq_refl)
    as (_ & Hu & Hq & _).
  split; [exact Hu | ].
  rewrite Hq. reflexivity.
Defined.

Lemma develop_preserves_order_instance :
  let s := pending [photoA; photoB; photoC] in
  let es := [Resume landscape; Resume broken; Resume portrait] in
  exists s' r,
    App.steps canvasDim toDataURL
      (App.step canvasDim toDataURL (s, None) ProcessPhotos) es
      = (s', Some r) /\
    map FramedPhotoData.id (newQueue r) = ["a"; "c"] /\
    map FramedPhotoData.id (processingQueue (finish r s')) = ["a"; "c"].
Proof.
  cbv zeta.
  destruct (develop_preserves_order canvasDim toDataURL
              (pending [photoA; photoB; photoC])
              [Resume landscape; Resume broken; Resume portrait]
              landscape ltac:(discriminate) eq_refl ltac:(cbn; lia))
    as (s' & r & Hrun & _ & _ & _ & Hids & Hend).
  exists s', r. split; [exact Hrun | ].
  split; [rewrite Hids; reflexivity | ].
  destruct (Hend eq_refl) as [_ Hq].
  unfold Framed in *. rewrite Hq, map_app, Hids.
  vm_compute in Hrun. injection Hrun as <- _. reflexivity.
Defined.

(** C2 as first stated fails: with two uploads of which the first cannot be
    decoded, the progress value after that first item is 50, while no item
    has been framed, so that framed / total is 0. *)
Lemma progress_counts_failed_items :
  exists r,
    snd (run firstFails) = Some r /\
    total r = 2%nat /\
    i r = 1%nat /\
    newQueue r = [] /\
    (progress (fst (run firstFails)) == 50)%Q /\
    ~ (progress (fst (run firstFails))
         == ofNat (List.length (newQueue r)) / ofNat (total r))%Q.
Proof.
  eexists. split; [reflexivity | ].
  cbn [total i newQueue].
  repeat split; try reflexivity.
  intros H. vm_compute in H. discriminate H.
Qed.

(** C1 does not hold of the code: [ejectPhoto] hands out the counter and
    then increments it, [handleDragStart] increments it and then hands it
    out.  Photo "a" is released with index 10, dragged to index 12, and the
    next release gives photo "b" the index 12 again. *)
Theorem zIndex_tie_after_drag :
  idAndZIndex (run (firstn 6 dragThenEject)) = [("a", 10%Z)] /\
  highestZIndex (fst (run (firstn 6 dragThenEject))) = 11%Z /\
  idAndZIndex (run (firstn 7 dragThenEject)) = [("a", 12%Z)] /\
  highestZIndex (fst (run (firstn 7 dragThenEject))) = 12%Z /\
  idAndZIndex (run dragThenEject) = [("a", 12%Z); ("b", 12%Z)] /\
  highestZIndex (fst (run dragThenEject)) = 13%Z.
Proof. repeat split; vm_compute; reflexivity. Qed.

End Runs.

(** * Further properties of the framer *)

Section FramerMore.
Import Framer.
Variable canvasDim : Q -> Q.

(** X1: whatever the width, the photo region keeps the padding as margin on
    the left, on the right and at the top, is 0.84 of the width wide, and
    leaves below it a band 0.33 of the width high, the rest of the frame
    height. *)
Theorem layout_margins (width : Q) :
  let l := layout width in
  (padding l + photoWidth l == frameWidth l - padding l)%Q /\
  (photoWidth l == width * 0.84)%Q /\
  (padding l + photoHeight l == width * 0.92)%Q /\
  (frameHeight l - (padding l + photoHeight l) == width * 0.33)%Q /\
  (frameHeight l - (padding l + photoHeight l) == 4.125 * padding l)%Q.
Proof.
  cbv zeta. unfold layout; cbn [frameWidth frameHeight padding photoWidth
    photoHeight].
  repeat split; ring.
Qed.

(** X2: the side of the crop is the smaller of the two image dimensions,
    the crop rectangle ends inside the image on both axes, and what is
    trimmed on the leading sides is half the difference of the dimensions
    (nothing for a square image). *)
Theorem centerCrop_largest_square (img : Image) :
  let c := centerCrop img in
  sWidth c = ofN (N.min (width img) (height img)) /\
  sHeight c = ofN (N.min (width img) (height img)) /\
  (sx c + sWidth c <= ofN (width img))%Q /\
  (sy c + sHeight c <= ofN (height img))%Q /\
  (sx c + sy c
     == (ofN (N.max (width img) (height img))
         - ofN (N.min (width img) (height img))) / 2)%Q.
Proof.
  cbv zeta. unfold centerCrop. rewrite aspect_test.
  destruct (N.ltb_spec (height img) (width img)) as [Hlt | Hge];
    cbn [sx sy sWidth sHeight].
  - rewrite N.min_r, N.max_l by lia. apply ofN_lt in Hlt.
    repeat split; try reflexivity.
    + setoid_replace ((ofN (width img) - ofN (height img)) / 2
                      + ofN (height img))%Q
        with ((ofN (width img) + ofN (height img)) / 2)%Q by field.
      apply Qle_shift_div_r; lra.
    + lra.
    + field.
  - rewrite N.min_l, N.max_r by lia. apply ofN_le in Hge.
    repeat split; try reflexivity.
    + lra.
    + setoid_replace ((ofN (height img) - ofN (width img)) / 2
                      + ofN (width img))%Q
        with ((ofN (height img) + ofN (width img)) / 2)%Q by field.
      apply Qle_shift_div_r; lra.
    + field.
Qed.

Lemma forallb_rev (A : Type) (f : A -> bool) (l : list A) :
  forallb f (rev l) = forallb f l.
Proof.
  induction l as [ | a l IH]; [reflexivity | ].
  cbn [rev forallb]. rewrite forallb_app, IH. cbn [forallb].
  rewrite andb_true_r. apply andb_comm.
Qed.

Lemma forallb_trimStart (l : list N) :
  forallb isWhiteSpace (trimStart l) = forallb isWhiteSpace l.
Proof.
  induction l as [ | c rest IH]; cbn [trimStart forallb]; [reflexivity | ].
  destruct (isWhiteSpace c) eqn:Hc; cbn [forallb andb].
  - exact IH.
  - rewrite Hc. reflexivity.
Qed.

Lemma trimStart_white (l : list N) :
  forallb isWhiteSpace l = true -> trimStart l = [].
Proof.
  induction l as [ | c rest IH]; cbn [trimStart forallb]; [reflexivity | ].
  destruct (isWhiteSpace c); cbn [andb]; [exact IH | discriminate].
Qed.

Lemma forallb_trim (l : list N) :
  forallb isWhiteSpace (trim l) = forallb isWhiteSpace l.
Proof.
  unfold trim.
  rewrite forallb_rev, forallb_trimStart, forallb_rev, forallb_trimStart.
  reflexivity.
Qed.

(** [text && text.trim().length > 0] fails exactly on blank strings. *)
Lemma visible_test (text : string) :
  negb (text =? "") && (0 <? List.length (trim (codePoints text)))%nat
  = negb (blank text).
Proof.
  unfold blank. destruct (forallb isWhiteSpace (codePoints text)) eqn:Hb.
  - unfold trim. rewrite (trimStart_white _ Hb). cbn.
    apply andb_false_r.
  - assert (Ht : forallb isWhiteSpace (trim (codePoints text)) = false)
      by (rewrite forallb_trim; exact Hb).
    destruct text as [ | c rest]; [discriminate | ].
    destruct (trim (codePoints (String c rest))); [discriminate | reflexivity].
Qed.

(** X3: a caption that is empty or made only of the characters [trim]
    strips (the Unicode white space and line ends included) is not drawn at
    all; any other caption is drawn once, as it was typed (not trimmed),
    centred on the middle of the frame and limited to the width of the
    photo region. *)
Theorem caption_blank_or_drawn (text : string) (width : Q) :
  let l := layout width in
  if blank text
  then caption text width l = []
  else exists px y,
    caption text width l =
      [ SetFont px "'Caveat', cursive";
        SetFillStyle "#374151";
        SetTextAlign "center";
        SetTextBaseline "middle";
        FillText text (width / 2) y (photoWidth l) ].
Proof.
  cbv zeta. unfold caption. rewrite visible_test.
  destruct (blank text); cbn [negb]; [reflexivity | ].
  eexists _, _. reflexivity.
Qed.

(** X4: for a width that is not negative, the caption is drawn with its
    middle line inside the band below the photo: at or below the centre of
    the band, by at most a hundredth of the width, and above the lower edge
    of the frame. *)
Theorem caption_inside_band
    (img : Image) (text : string) (width x y maxWidth : Q) :
  (0 <= width)%Q ->
  In (FillText text x y maxWidth) (draw canvasDim img text width) ->
  let l := layout width in
  let top := (padding l + photoHeight l)%Q in
  let centre := (top + (frameHeight l - top) / 2)%Q in
  (x == width / 2)%Q /\
  (maxWidth == photoWidth l)%Q /\
  (centre <= y <= centre + width * 0.01)%Q /\
  (top <= y <= frameHeight l)%Q.
Proof.
  intros Hw Hin. cbv zeta.
  unfold draw in Hin. apply in_app_or in Hin.
  destruct Hin as [Hin | Hin].
  { cbn in Hin. repeat (destruct Hin as [Hin | Hin]; [discriminate | ]).
    contradiction. }
  assert (Hlo : (0 <= inject_Z (Qfloor (width * 0.1)))%Q).
  { change 0%Q with (inject_Z 0). rewrite <- Zle_Qle.
    change 0%Z with (Qfloor 0). apply Qfloor_resp_le. lra. }
  assert (Hhi : (inject_Z (Qfloor (width * 0.1)) <= width * 0.1)%Q)
    by apply Qfloor_le.
  unfold caption in Hin.
  revert Hlo Hhi Hin. generalize (Qfloor (width * 0.1)) as fontSize.
  intros fontSize Hlo Hhi Hin.
  destruct (negb (text =? "")
            && (0 <? List.length (trim (codePoints text)))%nat);
    [ | contradiction].
  cbn [In] in Hin.
  repeat (destruct Hin as [Hin | Hin]; [try discriminate | ]);
    [ | contradiction].
  injection Hin as <- <- <-.
  unfold layout; cbn [frameWidth frameHeight padding photoWidth photoHeight].
  assert (Hhalf :
    (2 * ((width * 1.25 - (width * 0.08 + (width - width * 0.08 * 2))) / 2)
     == width * 1.25 - (width * 0.08 + (width - width * 0.08 * 2)))%Q)
    by field.
  revert Hhalf.
  generalize
    ((width * 1.25 - (width * 0.08 + (width - width * 0.08 * 2))) / 2)%Q
    as half.
  intros half Hhalf.
  repeat split; try reflexivity; lra.
Qed.

End FramerMore.

(** * Further properties of the handlers *)

Section HandlerFacts.
Import App.

Lemma filter_all (A : Type) (f : A -> bool) (l : list A) :
  (forall a, In a l -> f a = true) -> filter f l = l.
Proof.
  induction l as [ | a l IH]; intros H; cbn [filter]; [reflexivity | ].
  rewrite (H a (or_introl eq_refl)), IH; [reflexivity | ].
  intros b Hb. apply H. right. exact Hb.
Qed.

Lemma map_all (A : Type) (f : A -> A) (l : list A) :
  (forall a, In a l -> f a = a) -> map f l = l.
Proof.
  induction l as [ | a l IH]; intros H; cbn [map]; [reflexivity | ].
  rewrite (H a (or_introl eq_refl)), IH; [reflexivity | ].
  intros b Hb. apply H. right. exact Hb.
Qed.

Lemma upload_id_differs (id : string) (l : list Uploaded) (p : Uploaded) :
  ~ In id (map UploadedPhoto.id l) -> In p l ->
  (UploadedPhoto.id p =? id) = false.
Proof.
  intros Hno Hp. apply String.eqb_neq. intros <-.
  apply Hno, in_map, Hp.
Qed.

Lemma framed_id_differs (id : string) (l : list Framed) (p : Framed) :
  ~ In id (map FramedPhotoData.id l) -> In p l ->
  (FramedPhotoData.id p =? id) = false.
Proof.
  intros Hno Hp. apply String.eqb_neq. intros <-.
  apply Hno, in_map, Hp.
Qed.

(** X5: with an id that no upload and no photo on the desk carries,
    [removeUpload], [updateCaption], [deleteDispensedPhoto] and
    [updatePhotoScale] leave the state as it is; [handleDragStart] still
    advances the counter, and changes nothing else. *)
Theorem absent_id_is_noop (s : State) (id text : string) (delta : Q) :
  ~ In id (map UploadedPhoto.id (uploads s)) ->
  ~ In id (map FramedPhotoData.id (dispensedPhotos s)) ->
  removeUpload id s = s /\
  updateCaption id text s = s /\
  deleteDispensedPhoto id s = s /\
  updatePhotoScale id delta s = s /\
  handleDragStart id s = setHighestZIndex (highestZIndex s + 1) s.
Proof.
  intros Hu Hd.
  unfold removeUpload, updateCaption, deleteDispensedPhoto, updatePhotoScale,
    handleDragStart, setUploads, setDispensedPhotos, setHighestZIndex.
  cbn [uploads processingQueue dispensedPhotos isProcessing progress
       cameraStream highestZIndex].
  rewrite (filter_all _ _ (uploads s)), (filter_all _ _ (dispensedPhotos s)),
    (map_all _ _ (uploads s)), !(map_all _ _ (dispensedPhotos s)).
  - destruct s; repeat split; reflexivity.
  - intros p Hp. rewrite (framed_id_differs id _ p Hd Hp). reflexivity.
  - intros p Hp. rewrite (framed_id_differs id _ p Hd Hp). reflexivity.
  - intros p Hp. rewrite (upload_id_differs id _ p Hu Hp). reflexivity.
  - intros p Hp. rewrite (framed_id_differs id _ p Hd Hp). reflexivity.
  - intros p Hp. rewrite (upload_id_differs id _ p Hu Hp). reflexivity.
Qed.

Lemma filter_twice (A : Type) (f g : A -> bool) (l : list A) :
  filter f (filter g l) = filter (fun a => g a && f a) l.
Proof.
  induction l as [ | a l IH]; cbn [filter]; [reflexivity | ].
  destruct (g a); cbn [filter andb]; [ | exact IH].
  rewrite IH. reflexivity.
Qed.

Lemma filter_swap (A : Type) (f g : A -> bool) (l : list A) :
  filter f (filter g l) = filter g (filter f l).
Proof.
  rewrite !filter_twice. apply filter_ext. intros a. apply andb_comm.
Qed.

(** X6: [removeUpload] removes every upload with the id and no other: an
    upload is kept exactly when it was there with another id.  Removing
    twice is removing once, and two removals commute. *)
Theorem removeUpload_removes (s : State) (id id' : string) (p : Uploaded) :
  (In p (uploads (removeUpload id s))
     <-> In p (uploads s) /\ UploadedPhoto.id p <> id) /\
  ~ In id (map UploadedPhoto.id (uploads (removeUpload id s))) /\
  removeUpload id (removeUpload id s) = removeUpload id s /\
  removeUpload id (removeUpload id' s) = removeUpload id' (removeUpload id s).
Proof.
  unfold removeUpload, setUploads.
  cbn [uploads processingQueue dispensedPhotos isProcessing progress
       cameraStream highestZIndex].
  split; [ | split; [ | split]].
  - rewrite filter_In, negb_true_iff, String.eqb_neq. reflexivity.
  - rewrite in_map_iff. intros (q & Hid & Hq).
    apply filter_In in Hq. destruct Hq as [_ Hq].
    rewrite Hid, String.eqb_refl in Hq. discriminate.
  - f_equal. rewrite filter_twice. apply filter_ext.
    intros q. apply andb_diag.
  - f_equal. apply filter_swap.
Qed.

(** X7: [deleteDispensedPhoto] removes from the desk every photo with the id
    and no other, touches neither the queue nor the counter, is idempotent,
    and two deletions commute. *)
Theorem deleteDispensedPhoto_removes
    (s : State) (id id' : string) (p : Framed) :
  (In p (dispensedPhotos (deleteDispensedPhoto id s))
     <-> In p (dispensedPhotos s) /\ FramedPhotoData.id p <> id) /\
  processingQueue (deleteDispensedPhoto id s) = processingQueue s /\
  highestZIndex (deleteDispensedPhoto id s) = highestZIndex s /\
  deleteDispensedPhoto id (deleteDispensedPhoto id s)
    = deleteDispensedPhoto id s /\
  deleteDispensedPhoto id (deleteDispensedPhoto id' s)
    = deleteDispensedPhoto id' (deleteDispensedPhoto id s).
Proof.
  unfold deleteDispensedPhoto, setDispensedPhotos.
  cbn [uploads processingQueue dispensedPhotos isProcessing progress
       cameraStream highestZIndex].
  split; [ | split; [reflexivity | split; [reflexivity | split]]].
  - rewrite filter_In, negb_true_iff, String.eqb_neq. reflexivity.
  - f_equal. rewrite filter_twice. apply filter_ext.
    intros q. apply andb_diag.
  - f_equal. apply filter_swap.
Qed.

(** X8: [updateCaption] keeps the uploads, their order, ids and urls; the
    uploads with the id get the new text and the others keep their
    caption; a second edit of the same id overrides the first. *)
Theorem updateCaption_sets (s : State) (id text text' : string) :
  let s' := updateCaption id text s in
  map UploadedPhoto.id (uploads s') = map UploadedPhoto.id (uploads s) /\
  map UploadedPhoto.url (uploads s') = map UploadedPhoto.url (uploads s) /\
  map UploadedPhoto.caption (uploads s')
    = map (fun p => if UploadedPhoto.id p =? id then text
                    else UploadedPhoto.caption p) (uploads s) /\
  updateCaption id text' (updateCaption id text s)
    = updateCaption id text' s.
Proof.
  cbv zeta. unfold updateCaption, setUploads.
  cbn [uploads processingQueue dispensedPhotos isProcessing progress
       cameraStream highestZIndex].
  rewrite !map_map.
  repeat split.
  - apply map_ext. intros p.
    destruct (UploadedPhoto.id p =? id); reflexivity.
  - apply map_ext. intros p.
    destruct (UploadedPhoto.id p =? id); reflexivity.
  - apply map_ext. intros p.
    destruct (UploadedPhoto.id p =? id); reflexivity.
  - f_equal. apply map_ext. intros p.
    destruct (UploadedPhoto.id p =? id) eqn:E; cbn [UploadedPhoto.id];
      rewrite E; reflexivity.
Qed.

(** X9: [handleFileUpload] appends the picked files after the uploads
    already there, in picking order, each with an empty caption; picking
    nothing changes nothing, and two picks in a row amount to one pick of
    both lists. *)
Theorem handleFileUpload_appends
    (s : State) (fs fs' : list (string * string)) :
  let s' := handleFileUpload (Some fs) s in
  map UploadedPhoto.id (uploads s')
    = map UploadedPhoto.id (uploads s) ++ map fst fs /\
  map UploadedPhoto.url (uploads s')
    = map UploadedPhoto.url (uploads s) ++ map snd fs /\
  map UploadedPhoto.caption (uploads s')
    = map UploadedPhoto.caption (uploads s) ++ map (fun _ => "") fs /\
  firstn (List.length (uploads s)) (uploads s') = uploads s /\
  handleFileUpload None s = s /\
  handleFileUpload (Some []) s = s /\
  handleFileUpload (Some fs') s' = handleFileUpload (Some (fs ++ fs')) s.
Proof.
  cbv zeta. unfold handleFileUpload, setUploads.
  cbn [uploads processingQueue dispensedPhotos isProcessing progress
       cameraStream highestZIndex map].
  rewrite !map_app, !map_map, app_nil_r, <- app_assoc.
  cbn [UploadedPhoto.id UploadedPhoto.url UploadedPhoto.caption].
  repeat split.
  - rewrite firstn_app, Nat.sub_diag, firstn_all, app_nil_r. reflexivity.
  - destruct s; reflexivity.
Qed.

End HandlerFacts.

(** * What every reachable configuration satisfies *)

Section Reachable.
Import App.
Variable canvasDim : Q -> Q.
Variable toDataURL : list Framer.CanvasCall -> string.

Local Abbreviation step := (App.step canvasDim toDataURL).
Local Abbreviation steps := (App.steps canvasDim toDataURL).

Lemma rescaled_in_range (p : Framed) (delta : Q) :
  (0.5 <= rescaled p delta <= 2.5)%Q.
Proof.
  unfold rescaled. split.
  - apply Q.le_max_l.
  - apply Q.max_lub; [lra | apply Q.le_min_l].
Qed.

(** The handlers that touch neither the desk nor the counter. *)
Lemma deskInvariant_same (s s' : State) :
  highestZIndex s' = highestZIndex s ->
  dispensedPhotos s' = dispensedPhotos s ->
  deskInvariant s -> deskInvariant s'.
Proof.
  unfold deskInvariant, photoInRange. intros -> ->. auto.
Qed.

Lemma photoInRange_later (s s' : State) (p : Framed) :
  (highestZIndex s <= highestZIndex s')%Z ->
  photoInRange s p -> photoInRange s' p.
Proof. unfold photoInRange. intros Hle [Hs Hz]. split; [exact Hs | lia]. Qed.

Lemma ejectPhoto_deskInvariant (deskRef : option Desk) (u1 u2 u3 : Q)
    (s : State) :
  deskInvariant s -> deskInvariant (ejectPhoto deskRef u1 u2 u3 s).
Proof.
  intros [Hc Hall]. unfold ejectPhoto.
  destruct (processingQueue s) as [ | nextPhoto rest]; [split; assumption | ].
  split; cbn; [lia | ].
  apply Forall_app. split.
  - revert Hall. apply Forall_impl. intros p Hp.
    apply (photoInRange_later s); [cbn; lia | exact Hp].
  - constructor; [ | constructor].
    split; cbn; [lra | lia].
Qed.

Lemma handleDragStart_deskInvariant (id : string) (s : State) :
  deskInvariant s -> deskInvariant (handleDragStart id s).
Proof.
  intros [Hc Hall]. unfold handleDragStart.
  split; cbn; [lia | ].
  apply Forall_map.
  revert Hall. apply Forall_impl. intros p [Hs Hz].
  destruct (FramedPhotoData.id p =? id); split; cbn in *; try assumption; lia.
Qed.

Lemma updatePhotoScale_deskInvariant (id : string) (delta : Q) (s : State) :
  deskInvariant s -> deskInvariant (updatePhotoScale id delta s).
Proof.
  intros [Hc Hall]. unfold updatePhotoScale.
  split; cbn; [exact Hc | ].
  apply Forall_map. revert Hall. apply Forall_impl. intros p [Hs Hz].
  destruct (FramedPhotoData.id p =? id); split; cbn in *; try assumption.
  apply rescaled_in_range.
Qed.

Lemma deleteDispensedPhoto_deskInvariant (id : string) (s : State) :
  deskInvariant s -> deskInvariant (deleteDispensedPhoto id s).
Proof.
  intros [Hc Hall]. unfold deleteDispensedPhoto.
  split; cbn; [exact Hc | ].
  apply Forall_forall. intros p Hp. apply filter_In in Hp.
  rewrite Forall_forall in Hall. apply Hall, Hp.
Qed.

Lemma step_deskInvariant (c : Config) (e : Event) :
  deskInvariant (fst c) -> deskInvariant (fst (step c e)).
Proof.
  destruct c as [s run]. cbn [fst]. intros Hinv.
  destruct e as [files | | | ? ? | ? | ? ? | ? | ? ? | | host | ? ? ? ? | ?];
    cbn [App.step fst].
  - destruct files; exact Hinv.
  - exact Hinv.
  - unfold stopCamera. destruct (cameraStream s); exact Hinv.
  - exact Hinv.
  - exact Hinv.
  - exact Hinv.
  - apply deleteDispensedPhoto_deskInvariant, Hinv.
  - apply updatePhotoScale_deskInvariant, Hinv.
  - unfold processPhotos.
    destruct ((List.length (uploads s) =? 0)%nat || isProcessing s);
      [exact Hinv | ].
    cbn [fst]. revert Hinv. apply deskInvariant_same;
      unfold stopCamera; destruct (cameraStream s); reflexivity.
  - destruct run as [r | ]; [ | exact Hinv].
    unfold resume. destruct (i r <? total r)%nat; exact Hinv.
  - unfold handleCameraClick. destruct (cameraStream s); [exact Hinv | ].
    apply ejectPhoto_deskInvariant, Hinv.
  - apply handleDragStart_deskInvariant, Hinv.
Qed.

Lemma reachable_deskInvariant (es : list Event) :
  deskInvariant (fst (steps initialConfig es)).
Proof.
  assert (H : forall c, deskInvariant (fst c) ->
                        deskInvariant (fst (steps c es))).
  { induction es as [ | e es IH]; intros c Hc; [exact Hc | ].
    apply (IH (step c e)), step_deskInvariant, Hc. }
  apply H. split; cbn; [lia | constructor].
Qed.

(** X10: in every configuration the event loop reaches, each photo on the
    desk has a scale between 0.5 and 2.5. *)
Theorem desk_scales_in_range (es : list Event) :
  Forall (fun p => (0.5 <= FramedPhotoData.scale p <= 2.5)%Q)
    (dispensedPhotos (fst (steps initialConfig es))).
Proof.
  destruct (reachable_deskInvariant es) as [_ Hall].
  revert Hall. apply Forall_impl. intros p [Hs _]. exact Hs.
Qed.

(** X11: in every configuration the event loop reaches, the counter is at
    least 10 and each photo on the desk has a z-index between 10 and the
    counter: no photo is ever above the next index [handleDragStart] will
    hand out. *)
Theorem desk_zIndex_in_range (es : list Event) :
  let s := fst (steps initialConfig es) in
  (10 <= highestZIndex s)%Z /\
  Forall (fun p => (10 <= FramedPhotoData.zIndex p <= highestZIndex s)%Z)
    (dispensedPhotos s).
Proof.
  cbv zeta. destruct (reachable_deskInvariant es) as [Hc Hall].
  split; [exact Hc | ].
  revert Hall. apply Forall_impl. intros p [_ Hz]. exact Hz.
Qed.

(** X12: in every configuration the event loop reaches, [handleDragStart]
    puts the photos with the dragged id strictly above every other photo
    on the desk. *)
Theorem handleDragStart_brings_to_front
    (es : list Event) (id : string) (p q : Framed) :
  let s' := handleDragStart id (fst (steps initialConfig es)) in
  In p (dispensedPhotos s') ->
  In q (dispensedPhotos s') ->
  FramedPhotoData.id p = id ->
  FramedPhotoData.id q <> id ->
  (FramedPhotoData.zIndex q < FramedPhotoData.zIndex p)%Z.
Proof.
  cbv zeta. destruct (reachable_deskInvariant es) as [_ Hall].
  rewrite Forall_forall in Hall.
  unfold handleDragStart, setDispensedPhotos, setHighestZIndex.
  cbn [uploads processingQueue dispensedPhotos isProcessing progress
       cameraStream highestZIndex].
  rewrite !in_map_iff.
  intros (p0 & Hp & Hp0) (q0 & Hq & Hq0) Hidp Hidq.
  destruct (FramedPhotoData.id p0 =? id) eqn:Ep.
  2:{ subst p. apply String.eqb_neq in Ep. contradiction. }
  destruct (FramedPhotoData.id q0 =? id) eqn:Eq.
  1:{ subst q. apply String.eqb_eq in Eq. cbn in Hidq. contradiction. }
  subst p q. cbn [withZIndex FramedPhotoData.zIndex].
  destruct (Hall q0 Hq0) as [_ Hz]. lia.
Qed.

(** X13: in every configuration the event loop reaches, the photo that
    [ejectPhoto] puts on the desk is not below any photo already there: its
    z-index is at least theirs. *)
Theorem ejectPhoto_on_top_or_tied
    (es : list Event) (deskRef : option Desk) (u1 u2 u3 : Q)
    (nextPhoto : Framed) (remainingQueue : list Framed) :
  let s := fst (steps initialConfig es) in
  processingQueue s = nextPhoto :: remainingQueue ->
  exists placed,
    dispensedPhotos (ejectPhoto deskRef u1 u2 u3 s)
      = dispensedPhotos s ++ [placed] /\
    Forall (fun q => (FramedPhotoData.zIndex q
                      <= FramedPhotoData.zIndex placed)%Z)
      (dispensedPhotos s).
Proof.
  cbv zeta. intros Hq.
  destruct (reachable_deskInvariant es) as [_ Hall].
  destruct (ejectPhoto_head deskRef u1 u2 u3 _ _ _ Hq)
    as (placed & Hd & _ & _ & _ & _ & _ & _ & Hz & _).
  exists placed. split; [exact Hd | ].
  revert Hall. apply Forall_impl. intros q [_ Hzq]. lia.
Qed.

End Reachable.

(** * The flag, the progress value and whole runs *)

Section RunMore.
Import App View.
Variable canvasDim : Q -> Q.
Variable toDataURL : list Framer.CanvasCall -> string.

Local Abbreviation step := (App.step canvasDim toDataURL).
Local Abbreviation steps := (App.steps canvasDim toDataURL).
Local Abbreviation developed := (App.developed canvasDim toDataURL).

Lemma classic_event (e : Event) :
  e = ProcessPhotos \/ (exists h, e = Resume h) \/
  (e <> ProcessPhotos /\ forall h, e <> Resume h).
Proof.
  destruct e; try (right; right; split; [ | intros ?]; discriminate).
  - left. reflexivity.
  - right. left. eexists. reflexivity.
Qed.

(** A handler that neither starts nor resumes a run leaves the run slot,
    the flag and the progress value alone. *)
Lemma handler_keeps_run (s : State) (run : option Run) (e : Event) :
  e <> ProcessPhotos ->
  (forall h, e <> Resume h) ->
  snd (step (s, run) e) = run /\
  isProcessing (fst (step (s, run) e)) = isProcessing s /\
  progress (fst (step (s, run) e)) = progress s.
Proof.
  intros Hp Hr.
  destruct e as [files | | | ? ? | ? | ? ? | ? | ? ? | | host | ? ? ? ? | ?];
    cbn [App.step fst snd]; try (repeat split; reflexivity).
  - destruct files; repeat split; reflexivity.
  - unfold stopCamera. destruct (cameraStream s); repeat split; reflexivity.
  - contradiction.
  - exfalso. apply (Hr host). reflexivity.
  - unfold handleCameraClick, ejectPhoto.
    destruct (cameraStream s), (processingQueue s); repeat split; reflexivity.
Qed.

Lemma processPhotos_passes (s : State) :
  uploads s <> [] ->
  isProcessing s = false ->
  exists s',
    processPhotos s =
      (s', Some {| seen := uploads s; total := List.length (uploads s);
                   i := 0; newQueue := [] |}) /\
    isProcessing s' = true /\ progress s' = 0%Q /\
    cameraStream s' = false /\
    uploads s' = uploads s /\
    processingQueue s' = processingQueue s /\
    dispensedPhotos s' = dispensedPhotos s /\
    highestZIndex s' = highestZIndex s.
Proof.
  intros Hne Hp. unfold processPhotos. rewrite Hp.
  destruct (uploads s) as [ | p ps] eqn:Hu; [contradiction | ].
  cbn [List.length Nat.eqb orb].
  eexists. split; [reflexivity | ].
  unfold stopCamera. destruct (cameraStream s) eqn:Hc; cbn;
    rewrite ?Hu, ?Hc; repeat split; reflexivity.
Qed.

Lemma item_progress_bounds (k n : nat) :
  (k < n)%nat -> (0 <= ofNat (k + 1) / ofNat n * 100 <= 100)%Q.
Proof.
  intros Hlt.
  assert (Hn : (0 < ofNat n)%Q).
  { unfold ofNat. change 0%Q with (inject_Z 0). rewrite <- Zlt_Qlt. lia. }
  assert (Hk : (0 <= ofNat (k + 1))%Q).
  { unfold ofNat. change 0%Q with (inject_Z 0). rewrite <- Zle_Qle. lia. }
  assert (Hkn : (ofNat (k + 1) <= ofNat n)%Q).
  { unfold ofNat. rewrite <- Zle_Qle. lia. }
  assert (H0 : (0 <= ofNat (k + 1) / ofNat n)%Q)
    by (apply Qle_shift_div_l; [exact Hn | lra]).
  assert (H1 : (ofNat (k + 1) / ofNat n <= 1)%Q)
    by (apply Qle_shift_div_r; [exact Hn | lra]).
  revert H0 H1. generalize (ofNat (k + 1) / ofNat n)%Q as f.
  intros f H0 H1. lra.
Qed.

Lemma step_runInvariant (c : Config) (e : Event) :
  runInvariant c -> runInvariant (step c e).
Proof.
  destruct c as [s run]. unfold runInvariant at 1. cbn [fst snd].
  intros Hinv.
  destruct (classic_event e) as [-> | [[h ->] | [Hp Hr]]].
  - (* processPhotos *)
    cbn [App.step]. unfold processPhotos.
    destruct run as [r | ]; destruct Hinv as [Hflag Hprog].
    + rewrite Hflag, orb_true_r. split; assumption.
    + rewrite Hflag, orb_false_r.
      destruct (List.length (uploads s) =? 0)%nat.
      * split; assumption.
      * split; cbn; [reflexivity | lra].
  - (* a resumption *)
    cbn [App.step]. destruct run as [r | ]; [ | exact Hinv].
    destruct Hinv as [Hflag Hprog]. unfold resume.
    destruct (Nat.ltb_spec (i r) (total r)) as [Hlt | Hge].
    + split; cbn; [exact Hflag | ].
      apply item_progress_bounds, Hlt.
    + split; reflexivity.
  - destruct (handler_keeps_run s run e Hp Hr) as (Hrun & Hflag & Hprog).
    unfold runInvariant. rewrite Hrun, Hflag, Hprog. exact Hinv.
Qed.

Lemma reachable_runInvariant (es : list Event) :
  runInvariant (steps initialConfig es).
Proof.
  assert (H : forall c, runInvariant c -> runInvariant (steps c es)).
  { induction es as [ | e es IH]; intros c Hc; [exact Hc | ].
    apply (IH (step c e)), step_runInvariant, Hc. }
  apply H. split; reflexivity.
Qed.

(** X14: in every configuration the event loop reaches, the progress value
    lies between 0 and 100, and it is 0 whenever [isProcessing] is clear. *)
Theorem progress_is_a_percentage (es : list Event) :
  let c := steps initialConfig es in
  (0 <= progress (fst c) <= 100)%Q /\
  (isProcessing (fst c) = true \/ progress (fst c) = 0%Q).
Proof.
  cbv zeta. pose proof (reachable_runInvariant es) as Hinv.
  unfold runInvariant in Hinv.
  destruct (snd (steps initialConfig es)); destruct Hinv as [Hflag Hprog].
  - split; [exact Hprog | left; exact Hflag].
  - split; [rewrite Hprog; lra | right; exact Hprog].
Qed.

(** X15: in every configuration the event loop reaches, [isProcessing] is
    set exactly while a run is suspended: the flag is never left set after
    a run has ended, and never clear during one. *)
Theorem isProcessing_tells_the_run (es : list Event) :
  let c := steps initialConfig es in
  isProcessing (fst c) =
    match snd c with Some _ => true | None => false end.
Proof.
  cbv zeta. pose proof (reachable_runInvariant es) as Hinv.
  unfold runInvariant in Hinv.
  destruct (snd (steps initialConfig es)); destruct Hinv as [Hflag _];
    exact Hflag.
Qed.

(** X16: with the camera off, the action button is disabled exactly when
    [processPhotos] would return at its guard; a click on the enabled
    button starts a run over the current uploads, sets the flag, resets the
    progress value and leaves the three collections as they are. *)
Theorem action_button_matches_guard (s : State) :
  cameraStream s = false ->
  if actionDisabled s
  then actionOnClick s = (s, None)
  else exists s',
    actionOnClick s =
      (s', Some {| seen := uploads s; total := List.length (uploads s);
                   i := 0; newQueue := [] |}) /\
    isProcessing s' = true /\ progress s' = 0%Q /\
    uploads s' = uploads s /\
    processingQueue s' = processingQueue s /\
    dispensedPhotos s' = dispensedPhotos s.
Proof.
  intros Hcam. unfold actionDisabled, actionOnClick. rewrite Hcam.
  cbn [negb]. rewrite andb_true_r.
  destruct ((List.length (uploads s) =? 0)%nat || isProcessing s) eqn:Hg.
  - unfold processPhotos. rewrite Hg. reflexivity.
  - apply orb_false_elim in Hg. destruct Hg as [Hlen Hflag].
    assert (Hne : uploads s <> []).
    { intros Hnil. rewrite Hnil in Hlen. discriminate. }
    destruct (processPhotos_passes s Hne Hflag)
      as (s' & Hrun & H1 & H2 & _ & H4 & H5 & H6 & _).
    exists s'. repeat split; assumption.
Qed.

(** X17: when the desk element is not mounted, or reports a size of zero,
    [ejectPhoto] places the photo as on a desk of 300 by 500: x between 50
    and 100 and y between 50 and 250. *)
Theorem ejectPhoto_without_desk
    (s : State) (deskRef : option Desk) (u1 u2 u3 : Q)
    (nextPhoto : Framed) (remainingQueue : list Framed) :
  processingQueue s = nextPhoto :: remainingQueue ->
  deskRef = None \/
    deskRef = Some {| clientWidth := 0; clientHeight := 0 |} ->
  (0 <= u1 < 1)%Q -> (0 <= u2 < 1)%Q ->
  exists placed,
    dispensedPhotos (ejectPhoto deskRef u1 u2 u3 s)
      = dispensedPhotos s ++ [placed] /\
    (50 <= FramedPhotoData.x placed <= 100)%Q /\
    (50 <= FramedPhotoData.y placed <= 250)%Q.
Proof.
  intros Hq Hdesk H1 H2.
  destruct (ejectPhoto_head deskRef u1 u2 u3 s _ _ Hq)
    as (placed & Hd & _ & _ & _ & _ & _ & _ & _ & _ & Hx & Hy & _).
  exists placed. split; [exact Hd | ].
  rewrite Hx, Hy.
  assert (Hw : sizeOr (option_map clientWidth deskRef) 300 = 300%Q)
    by (destruct Hdesk as [-> | ->]; reflexivity).
  assert (Hh : sizeOr (option_map clientHeight deskRef) 500 = 500%Q)
    by (destruct Hdesk as [-> | ->]; reflexivity).
  rewrite Hw, Hh. repeat split; lra.
Qed.

(** X18: on a desk narrower than 250 the photo does not fit between the
    margins: it is placed with x at most 50 and its assumed right edge
    x + 150 at or beyond width - 50; likewise on a desk lower than 300,
    with y at most 50 and y + 200 at or beyond height - 50. *)
Theorem ejectPhoto_narrow_desk
    (s : State) (desk : Desk) (u1 u2 u3 : Q)
    (nextPhoto : Framed) (remainingQueue : list Framed) :
  processingQueue s = nextPhoto :: remainingQueue ->
  (0 <= u1 < 1)%Q -> (0 <= u2 < 1)%Q ->
  exists placed,
    dispensedPhotos (ejectPhoto (Some desk) u1 u2 u3 s)
      = dispensedPhotos s ++ [placed] /\
    ((0 < clientWidth desk < 250)%N ->
     (FramedPhotoData.x placed <= 50)%Q /\
     (ofN (clientWidth desk) - 50 <= FramedPhotoData.x placed + 150)%Q) /\
    ((0 < clientHeight desk < 300)%N ->
     (FramedPhotoData.y placed <= 50)%Q /\
     (ofN (clientHeight desk) - 50 <= FramedPhotoData.y placed + 200)%Q).
Proof.
  intros Hq H1 H2.
  destruct (ejectPhoto_head (Some desk) u1 u2 u3 s _ _ Hq)
    as (placed & Hd & _ & _ & _ & _ & _ & _ & _ & _ & Hx & Hy & _).
  exists placed. split; [exact Hd | ].
  cbn [option_map] in Hx, Hy. split.
  - intros [Hlo Hhi]. rewrite Hx, sizeOr_large by exact Hlo.
    apply ofN_lt in Hhi. change (ofN 250) with 250%Q in Hhi.
    split; nra.
  - intros [Hlo Hhi]. rewrite Hy, sizeOr_large by exact Hlo.
    apply ofN_lt in Hhi. change (ofN 300) with 300%Q in Hhi.
    split; nra.
Qed.

End RunMore.

(** * Whole runs, from upload to desk *)

Section WholeRuns.
Import App.
Variable canvasDim : Q -> Q.
Variable toDataURL : list Framer.CanvasCall -> string.

Local Abbreviation step := (App.step canvasDim toDataURL).
Local Abbreviation steps := (App.steps canvasDim toDataURL).
Local Abbreviation developed := (App.developed canvasDim toDataURL).
Local Abbreviation framedOrSkipped := (App.framedOrSkipped canvasDim toDataURL).

Lemma developed_none (batch : list Uploaded) :
  forall hosts,
    forallb (fun h => negb (frames h)) hosts = true ->
    developed batch hosts = [].
Proof.
  induction batch as [ | photo batch IH]; intros [ | h hosts] Hall;
    try reflexivity.
  cbn [forallb] in Hall. apply andb_prop in Hall. destruct Hall as [Hh Hall].
  rewrite developed_cons, (IH hosts Hall), app_nil_r.
  pose proof (framedOrSkipped_frames canvasDim toDataURL photo h) as Hids.
  apply negb_true_iff in Hh. rewrite Hh in Hids.
  apply map_eq_nil in Hids. exact Hids.
Qed.

Lemma developed_all (batch : list Uploaded) :
  forall hosts,
    List.length hosts = List.length batch ->
    forallb frames hosts = true ->
    map FramedPhotoData.id (developed batch hosts)
    = map UploadedPhoto.id batch.
Proof.
  induction batch as [ | photo batch IH]; intros [ | h hosts] Hlen Hall;
    try discriminate; [reflexivity | ].
  cbn [forallb] in Hall. apply andb_prop in Hall. destruct Hall as [Hh Hall].
  rewrite developed_cons, map_app, framedOrSkipped_frames, Hh.
  cbn [map app]. f_equal. apply IH; [ | exact Hall].
  cbn in Hlen. lia.
Qed.

Lemma answers_resumes (hosts : list Framer.Host) :
  answers (map Resume hosts) = hosts.
Proof.
  induction hosts as [ | h hosts IH]; [reflexivity | ].
  cbn [map]. change (answers (Resume h :: map Resume hosts))
    with (h :: answers (map Resume hosts)).
  rewrite IH. reflexivity.
Qed.

(** Resumptions before the last leave the three collections alone. *)
Lemma resumes_keep (hosts : list Framer.Host) :
  forall (s : State) (r : Run),
    (i r + List.length hosts <= total r)%nat ->
    uploads (fst (steps (s, Some r) (map Resume hosts))) = uploads s /\
    processingQueue (fst (steps (s, Some r) (map Resume hosts)))
      = processingQueue s /\
    dispensedPhotos (fst (steps (s, Some r) (map Resume hosts)))
      = dispensedPhotos s.
Proof.
  induction hosts as [ | h hosts IH]; intros s r Hle.
  - repeat split.
  - cbn [map List.length] in *. unfold App.steps. cbn [fold_left App.step].
    unfold resume.
    assert (Hlt : (i r <? total r)%nat = true) by (apply Nat.ltb_lt; lia).
    rewrite Hlt. cbn [iteration].
    match goal with
    | |- context [fold_left _ _ (?s1, Some ?r1)] =>
        destruct (IH s1 r1) as (H1 & H2 & H3); [cbn; lia | ]
    end.
    unfold App.steps in H1, H2, H3. rewrite H1, H2, H3.
    repeat split.
Qed.

(** X19: when the framing of every upload of a run fails, the run still
    ends by emptying the uploads, and the queue gets nothing: the uploads
    are lost. *)
Theorem all_failures_lose_the_uploads
    (s : State) (es : list Event) (last : Framer.Host) :
  uploads s <> [] ->
  isProcessing s = false ->
  List.length (answers es) = List.length (uploads s) ->
  forallb (fun h => negb (frames h)) (answers es) = true ->
  let c := steps (step (s, None) ProcessPhotos) es in
  let c' := step c (Resume last) in
  uploads (fst c') = [] /\
  processingQueue (fst c') = processingQueue (fst c) /\
  dispensedPhotos (fst c') = dispensedPhotos (fst c) /\
  isProcessing (fst c') = false.
Proof.
  intros Hne Hp Hlen Hall c c'. subst c c'.
  destruct (run_to_the_end canvasDim toDataURL s es Hne Hp ltac:(lia))
    as (s' & Hrun & _ & _).
  rewrite Hrun, resume_finishes by exact Hlen.
  rewrite developed_none by exact Hall.
  cbn. rewrite app_nil_r. repeat split.
Qed.

Lemma ids_of_content (l : list Framed) :
  map FramedPhotoData.id l = map (fun t => fst (fst t)) (map content l).
Proof. rewrite map_map. reflexivity. Qed.

(** X20: uploads that all frame, developed in one run and then released
    once per queued photo, arrive on the desk in upload order, after the
    photos that were queued before them; uploads and queue end empty. *)
Theorem develop_then_release_all
    (s : State) (hosts : list Framer.Host) (last : Framer.Host)
    (draws : list (option Desk * (Q * Q * Q))) :
  uploads s <> [] ->
  isProcessing s = false ->
  List.length hosts = List.length (uploads s) ->
  forallb frames hosts = true ->
  List.length draws
    = (List.length (processingQueue s) + List.length (uploads s))%nat ->
  let c := steps (s, None) (ProcessPhotos :: map Resume hosts ++ [Resume last]) in
  let s' := ejectAll draws (fst c) in
  snd c = None /\
  uploads s' = [] /\
  processingQueue s' = [] /\
  map FramedPhotoData.id (dispensedPhotos s')
    = map FramedPhotoData.id (dispensedPhotos s)
      ++ map FramedPhotoData.id (processingQueue s)
      ++ map UploadedPhoto.id (uploads s).
Proof.
  intros Hne Hp Hlen Hall Hdraws c s'. subst c s'.
  change (steps (s, None) (ProcessPhotos :: map Resume hosts ++ [Resume last]))
    with (steps (step (s, None) ProcessPhotos)
            (map Resume hosts ++ [Resume last])).
  rewrite steps_app.
  destruct (run_to_the_end canvasDim toDataURL s (map Resume hosts) Hne Hp)
    as (s1 & Hrun & _ & _); [rewrite answers_resumes; lia | ].
  rewrite answers_resumes in Hrun.
  assert (Hkeep :
    uploads s1 = uploads s /\ processingQueue s1 = processingQueue s /\
    dispensedPhotos s1 = dispensedPhotos s).
  { destruct (processPhotos_passes s Hne Hp)
      as (s0 & Hpass & _ & _ & _ & Hu0 & Hq0 & Hd0 & _).
    revert Hrun. cbn [App.step]. rewrite Hpass. intros Hrun.
    destruct (resumes_keep hosts s0
                {| seen := uploads s; total := List.length (uploads s);
                   i := 0; newQueue := [] |})
      as (H1 & H2 & H3); [cbn; lia | ].
    rewrite Hrun in H1, H2, H3. cbn [fst] in H1, H2, H3.
    rewrite H1, H2, H3. auto. }
  destruct Hkeep as (_ & Hq1 & Hd1).
  rewrite Hrun. cbn [App.steps fold_left].
  rewrite resume_finishes by (cbn; exact Hlen).
  cbn [fst snd].
  pose proof (developed_all (uploads s) hosts Hlen Hall) as Hids.
  destruct (ejectAll_drains draws
              (finish {| seen := uploads s; total := List.length (uploads s);
                         i := List.length hosts;
                         newQueue := developed (uploads s) hosts |} s1))
    as (Hq & Hu & Hd).
  { cbn. rewrite length_app, Hq1, Hdraws. f_equal.
    rewrite <- (length_map FramedPhotoData.id), Hids, length_map.
    reflexivity. }
  split; [reflexivity | ]. split; [rewrite Hu; reflexivity | ].
  split; [exact Hq | ].
  rewrite ids_of_content, Hd. cbn [finish setProgress setIsProcessing
    setUploads setProcessingQueue dispensedPhotos processingQueue newQueue].
  rewrite !map_app, <- !ids_of_content, Hids, Hq1, Hd1. reflexivity.
Qed.

(** X21: whatever the scale of a photo was (0 included, which the handler
    reads as 1) and whatever [delta] is, [updatePhotoScale] leaves the photo
    with a scale between 0.5 and 2.5. *)
Theorem updatePhotoScale_always_in_range
    (s : State) (id : string) (delta : Q) (n : nat) (p : Framed) :
  nth_error (dispensedPhotos s) n = Some p ->
  FramedPhotoData.id p = id ->
  exists p',
    nth_error (dispensedPhotos (updatePhotoScale id delta s)) n = Some p' /\
    (0.5 <= FramedPhotoData.scale p' <= 2.5)%Q /\
    ((FramedPhotoData.scale p == 0)%Q ->
     (FramedPhotoData.scale p' == clamp (1 + delta) 0.5 2.5)%Q).
Proof.
  intros Hn Hid. exists (withScale p (rescaled p delta)).
  rewrite nth_error_updatePhotoScale, Hn. cbn [option_map].
  rewrite Hid, String.eqb_refl. cbn [withScale FramedPhotoData.scale].
  split; [reflexivity | ]. split; [apply rescaled_in_range | ].
  intros H0. unfold rescaled, orElse.
  apply Qeq_bool_iff in H0. rewrite H0.
  apply max_min_is_clamp. lra.
Qed.

End WholeRuns.

(** * Further concrete runs *)

Section MoreRuns.
Import App View Sample.

Local Abbreviation run := (App.steps canvasDim toDataURL initialConfig).

Lemma caption_inside_band_instance :
  let img := {| Framer.width := 800; Framer.height := 400 |} in
  let l := Framer.layout 600 in
  let y := (Framer.padding l + Framer.photoHeight l
            + (Framer.frameHeight l
               - (Framer.padding l + Framer.photoHeight l)) / 2
            + inject_Z (Qfloor (600 * 0.1)) * 0.1)%Q in
  In (Framer.FillText "A" (600 / 2) y
        (Framer.frameWidth l - Framer.padding l * 2))
     (Framer.draw canvasDim img "A" 600) /\
  (y == 657)%Q /\
  (552 <= y <= 750)%Q.
Proof.
  cbv zeta.
  assert (Hin :
    In (Framer.FillText "A" (600 / 2)
          (Framer.padding (Framer.layout 600)
           + Framer.photoHeight (Framer.layout 600)
           + (Framer.frameHeight (Framer.layout 600)
              - (Framer.padding (Framer.layout 600)
                 + Framer.photoHeight (Framer.layout 600))) / 2
           + inject_Z (Qfloor (600 * 0.1)) * 0.1)%Q
          (Framer.frameWidth (Framer.layout 600)
           - Framer.padding (Framer.layout 600) * 2))
       (Framer.draw canvasDim
          {| Framer.width := 800; Framer.height := 400 |} "A" 600)).
  { vm_compute. do 14 right. left. reflexivity. }
  split; [exact Hin | ]. split; [reflexivity | ].
  destruct (caption_inside_band canvasDim _ "A" 600 _ _ _
              ltac:(lra) Hin) as (_ & _ & _ & Hy).
  split; [ | apply Hy].
  eapply Qle_trans; [ | apply Hy]. vm_compute. discriminate.
Defined.

Lemma absent_id_is_noop_instance :
  let s := setDispensedPhotos (fun _ => [placedA]) (pending [photoA]) in
  removeUpload "zzz" s = s /\
  updatePhotoScale "zzz" 1 s = s /\
  highestZIndex (handleDragStart "zzz" s) = 11%Z /\
  dispensedPhotos (handleDragStart "zzz" s) = [placedA].
Proof.
  cbv zeta.
  destruct (absent_id_is_noop
              (setDispensedPhotos (fun _ => [placedA]) (pending [photoA]))
              "zzz" "text" 1)
    as (H1 & _ & _ & H4 & H5).
  - cbn. intros [H | []]. discriminate H.
  - cbn. intros [H | []]. discriminate H.
  - split; [exact H1 | ]. split; [exact H4 | ].
    rewrite H5. split; reflexivity.
Defined.

Lemma handleDragStart_brings_to_front_instance :
  let s' := handleDragStart "b" (fst (run dragThenEject)) in
  let q := nth 0 (dispensedPhotos s') placedA in
  let p := nth 1 (dispensedPhotos s') placedA in
  FramedPhotoData.id q = "a" /\ FramedPhotoData.id p = "b" /\
  (FramedPhotoData.zIndex q < FramedPhotoData.zIndex p)%Z.
Proof.
  cbv zeta. split; [reflexivity | ]. split; [reflexivity | ].
  apply (handleDragStart_brings_to_front canvasDim toDataURL
           dragThenEject "b").
  - vm_compute. right. left. reflexivity.
  - vm_compute. left. reflexivity.
  - reflexivity.
  - discriminate.
Defined.

Lemma ejectPhoto_on_top_or_tied_instance :
  let s := fst (run (firstn 7 dragThenEject)) in
  map FramedPhotoData.id (processingQueue s) = ["b"] /\
  exists placed,
    dispensedPhotos (ejectPhoto None 0 0 0 s)
      = dispensedPhotos s ++ [placed] /\
    Forall (fun q => (FramedPhotoData.zIndex q
                      <= FramedPhotoData.zIndex placed)%Z)
      (dispensedPhotos s).
Proof.
  cbv zeta. split; [reflexivity | ].
  apply (ejectPhoto_on_top_or_tied canvasDim toDataURL
           (firstn 7 dragThenEject) None 0 0 0
           (hd placedA (processingQueue (fst (run (firstn 7 dragThenEject)))))
           (tl (processingQueue (fst (run (firstn 7 dragThenEject)))))).
  vm_compute. reflexivity.
Defined.

Lemma action_button_matches_guard_instance :
  cameraStream (pending [photoA]) = false /\
  actionDisabled (pending [photoA]) = false /\
  isProcessing (fst (actionOnClick (pending [photoA]))) = true /\
  actionDisabled (fst (actionOnClick (pending [photoA]))) = true.
Proof.
  split; [reflexivity | ]. split; [reflexivity | ].
  pose proof (action_button_matches_guard (pending [photoA]) eq_refl) as H.
  assert (Hd : actionDisabled (pending [photoA]) = false) by reflexivity.
  rewrite Hd in H. destruct H as (s' & Hrun & Hflag & _).
  rewrite Hrun. cbn [fst]. split; [exact Hflag | ].
  unfold actionDisabled. rewrite Hflag. apply orb_true_r.
Defined.

Lemma ejectPhoto_without_desk_instance :
  processingQueue (queued [artifact "a"]) = [artifact "a"] /\
  exists placed,
    dispensedPhotos (ejectPhoto None 0.5 0.5 0 (queued [artifact "a"]))
      = [placed] /\
    (50 <= FramedPhotoData.x placed <= 100)%Q /\
    (50 <= FramedPhotoData.y placed <= 250)%Q.
Proof.
  split; [reflexivity | ].
  apply (ejectPhoto_without_desk (queued [artifact "a"]) None 0.5 0.5 0
           (artifact "a") []);
    [reflexivity | left; reflexivity | lra | lra].
Defined.

Lemma ejectPhoto_narrow_desk_instance :
  exists placed,
    dispensedPhotos
      (ejectPhoto (desk 200 250) 0.5 0.5 0 (queued [artifact "a"]))
      = [placed] /\
    (FramedPhotoData.x placed <= 50)%Q /\
    (200 - 50 <= FramedPhotoData.x placed + 150)%Q /\
    (FramedPhotoData.y placed <= 50)%Q /\
    (250 - 50 <= FramedPhotoData.y placed + 200)%Q.
Proof.
  destruct (ejectPhoto_narrow_desk (queued [artifact "a"])
              {| clientWidth := 200; clientHeight := 250 |} 0.5 0.5 0
              (artifact "a") [] eq_refl ltac:(lra) ltac:(lra))
    as (placed & Hd & Hx & Hy).
  exists placed. split; [exact Hd | ].
  destruct (Hx ltac:(cbn; lia)) as [Hx1 Hx2].
  destruct (Hy ltac:(cbn; lia)) as [Hy1 Hy2].
  repeat split; assumption.
Defined.

Lemma all_failures_lose_the_uploads_instance :
  let c := App.steps canvasDim toDataURL
             (App.step canvasDim toDataURL
                (pending [photoA; photoB], None) ProcessPhotos)
             [Resume broken; Resume broken] in
  let c' := App.step canvasDim toDataURL c (Resume landscape) in
  map UploadedPhoto.id (uploads (fst c)) = ["a"; "b"] /\
  uploads (fst c') = [] /\
  processingQueue (fst c') = [].
Proof.
  cbv zeta. split; [reflexivity | ].
  destruct (all_failures_lose_the_uploads canvasDim toDataURL
              (pending [photoA; photoB]) [Resume broken; Resume broken]
              landscape ltac:(discriminate) eq_refl eq_refl eq_refl)
    as (Hu & Hq & _).
  split; [exact Hu | ]. rewrite Hq. reflexivity.
Defined.

Lemma develop_then_release_all_instance :
  let c := run [ FileUpload (Some [("a", "blob:a"); ("b", "blob:b")]) ] in
  let c' := App.steps canvasDim toDataURL (fst c, None)
              (ProcessPhotos
                 :: map Resume [landscape; portrait] ++ [Resume landscape]) in
  let s' := ejectAll [(desk 1000 800, (0.5, 0.5, 0.5)); (None, (0, 0, 0))]
              (fst c') in
  map FramedPhotoData.id (dispensedPhotos s') = ["a"; "b"] /\
  uploads s' = [] /\ processingQueue s' = [].
Proof.
  cbv zeta.
  destruct (develop_then_release_all canvasDim toDataURL
              (fst (run [FileUpload (Some [("a", "blob:a"); ("b", "blob:b")])]))
              [landscape; portrait] landscape
              [(desk 1000 800, (0.5, 0.5, 0.5)%Q); (None, (0, 0, 0)%Q)]
              ltac:(discriminate) eq_refl eq_refl eq_refl eq_refl)
    as (_ & Hu & Hq & Hd).
  split; [rewrite Hd; reflexivity | ]. split; [exact Hu | exact Hq].
Defined.

Lemma updatePhotoScale_always_in_range_instance :
  let zero := FramedPhotoData.make "z" "blob:z" "data:image/png;base64"
                60 70 5 10 0 in
  let s := setDispensedPhotos (fun _ => [zero]) initialState in
  exists p',
    nth_error (dispensedPhotos (updatePhotoScale "z" 0.3 s)) 0 = Some p' /\
    (FramedPhotoData.scale p' == 1.3)%Q.
Proof.
  cbv zeta.
  destruct (updatePhotoScale_always_in_range
              (setDispensedPhotos
                 (fun _ => [FramedPhotoData.make "z" "blob:z"
                              "data:image/png;base64" 60 70 5 10 0])
                 initialState)
              "z" 0.3 0
              (FramedPhotoData.make "z" "blob:z" "data:image/png;base64"
                 60 70 5 10 0) eq_refl eq_refl)
    as (p' & Hn & _ & Hz).
  exists p'. split; [exact Hn | ].
  rewrite Hz; reflexivity.
Defined.

End MoreRuns.

(** * Concrete frames *)

Section Frames.
Import Framer Sample.

Lemma centerCrop_centered_square_instance :
  let img := {| width := 800; height := 400 |} in
  onload landscape = Some img /\
  context2d landscape = true /\
  createPolaroidFrame canvasDim toDataURL landscape "blob:a" "A" 600
    = Resolved (toDataURL (draw canvasDim img "A" 600)) /\
  (sx (centerCrop img) == 200)%Q /\
  (sy (centerCrop img) == 0)%Q /\
  (sWidth (centerCrop img) == 400)%Q /\
  (sHeight (centerCrop img) == 400)%Q.
Proof.
  cbv zeta. split; [reflexivity | ]. split; [reflexivity | ].
  destruct (centerCrop_centered_square canvasDim toDataURL landscape
              {| width := 800; height := 400 |} "blob:a" "A" 600
              eq_refl eq_refl)
    as (Hres & Hc & _).
  split; [exact Hres | ].
  rewrite Hc. repeat split; reflexivity.
Defined.



(** Captions made of white space beyond ASCII are blank, and not drawn. *)
Lemma unicode_spaces_are_blank :
  blank (noBreakSpace ++ ideographicSpace ++ " " ++ byteOrderMark) = true /\
  caption noBreakSpace 600 (layout 600) = [] /\
  blank (noBreakSpace ++ "A") = false.
Proof. repeat split. Qed.

End Frames.
